(** * Ride-hailing backend: trip lifecycle, pricing, reviews, accounts

    A shallow embedding of the request handlers of the FastAPI/SQLAlchemy
    application ([api/trips.py], [api/reviews.py], [api/auth.py],
    [api/users.py], [api/drivers.py], [api/messages.py], [api/guests.py],
    [api/admin.py], [models.py], [database.py]).

    - Python [float] is IEEE binary64: Rocq's primitive [float].
    - Python [int] is [Z]; [str] is [string]; a column declared nullable is
      an [option]; a Boolean column with a default is a [bool].
    - A table is the list of its rows in insertion order; foreign keys are
      not enforced (a trip may name a client or a driver that does not
      exist), as in the SQLite store the application opens.
    - A handler runs in a session ([database.get_db]): it reads and mutates a
      working copy of the store, [commit] persists the working copy, and a
      handler that raises leaves the persisted store as the last commit left
      it (the session is closed without committing). *)

From Stdlib Require Import ZArith List String Ascii Bool Floats Lia.
From Stdlib Require Import DecimalString.
From Stdlib Require DecimalPos.
Import ListNotations.

Set Warnings "-inexact-float,-register-all".

Local Open Scope string_scope.
Local Open Scope Z_scope.

(** ** Python builtins used by the handlers *)

Module Py.

(** *** Numbers *)

(** [float(n)] for an integer [n]: the nearest binary64 value. *)
Definition float_of_int (n : Z) : float :=
  SF2Prim (binary_normalize prec emax n 0 false).

(** A positive-mantissa integer as an unrounded spec float. *)
Definition SF_of_Z (n : Z) : spec_float :=
  match n with
  | Z0 => S754_zero false
  | Zpos p => S754_finite false p 0
  | Zneg p => S754_finite true p 0
  end.

(** [a / b] on two integers: Python's true division, the correctly rounded
    quotient.  Division by zero raises in Python; the handlers only divide
    by the literal 100. *)
Definition truediv (a b : Z) : float :=
  SF2Prim (SFdiv prec emax (SF_of_Z a) (SF_of_Z b)).

(** The integer nearest to [n / d] ([d > 0]), ties to the even one. *)
Definition round_half_even (n d : Z) : Z :=
  let q := n / d in
  let r := n mod d in
  match (2 * r ?= d) with
  | Lt => q
  | Gt => q + 1
  | Eq => if Z.even q then q else q + 1
  end.

(** [round(x, ndigits)] on a float, [ndigits >= 0]: the exact binary value
    of [x] is rounded half-even to [ndigits] decimals, and the decimal
    result is converted back to the nearest float.  Zeros, infinities and
    NaN round to themselves. *)
Definition round (x : float) (ndigits : nat) : float :=
  match Prim2SF x with
  | S754_finite s m e =>
      let p := 10 ^ Z.of_nat ndigits in
      let q := if 0 <=? e
               then Zpos m * 2 ^ e * p
               else round_half_even (Zpos m * p) (2 ^ (- e)) in
      match q with
      | Zpos q' =>
          SF2Prim (SFdiv prec emax (S754_finite s q' 0) (SF_of_Z p))
      | _ => SF2Prim (S754_zero s)
      end
  | _ => x
  end.

(** *** Strings *)

(** [str(n)] for an integer. *)
Definition str (n : Z) : string := NilZero.string_of_int (Z.to_int n).

Definition upper_ascii (c : ascii) : ascii :=
  let n := nat_of_ascii c in
  if ((97 <=? n) && (n <=? 122))%nat then ascii_of_nat (n - 32) else c.

(** [s.upper()], on the ASCII letters. *)
Fixpoint upper (s : string) : string :=
  match s with
  | EmptyString => EmptyString
  | String c s' => String (upper_ascii c) (upper s')
  end.

(** [s.split(sep)] for a one-character separator. *)
Fixpoint split (sep : ascii) (s : string) : list string :=
  match s with
  | EmptyString => [EmptyString]
  | String c s' =>
      if Ascii.eqb c sep then EmptyString :: split sep s'
      else match split sep s' with
           | [] => [String c EmptyString]
           | w :: ws => String c w :: ws
           end
  end.

(** [sep.join(l)]. *)
Fixpoint join (sep : string) (l : list string) : string :=
  match l with
  | [] => EmptyString
  | [x] => x
  | x :: xs => (x ++ sep ++ join sep xs)%string
  end.

Fixpoint lstrip (p : ascii -> bool) (s : string) : string :=
  match s with
  | EmptyString => EmptyString
  | String c s' => if p c then lstrip p s' else s
  end.

Fixpoint rstrip (p : ascii -> bool) (s : string) : string :=
  match s with
  | EmptyString => EmptyString
  | String c s' =>
      match rstrip p s' with
      | EmptyString => if p c then EmptyString else String c EmptyString
      | r => String c r
      end
  end.

(** [s.strip(chars)]: leading and trailing characters satisfying [p]
    removed. *)
Definition strip (p : ascii -> bool) (s : string) : string :=
  rstrip p (lstrip p s).

(** The ASCII whitespace removed by [s.strip()]. *)
Definition isspace (c : ascii) : bool :=
  let n := nat_of_ascii c in
  (((9 <=? n) && (n <=? 13)) || ((28 <=? n) && (n <=? 32)))%nat.

(** Truthiness of a string: non-empty. *)
Definition truthy (s : string) : bool :=
  match s with EmptyString => false | _ => true end.

(** Truthiness of an optional string: neither [None] nor empty. *)
Definition otruthy (o : option string) : bool :=
  match o with Some s => truthy s | None => false end.

End Py.

(** ** The schema ([models.py]) *)

Module User.
Record t := mk {
  id : Z;
  full_name : string;
  email : string;
  phone : string;
  password : string;
  role : string;
  home_address : option string;
  preferences : option string;
  favorites : option string;
  is_verified : bool;
  is_active : bool
}.
Definition set_home_address v (u : t) :=
  mk (id u) (full_name u) (email u) (phone u) (password u) (role u)
     v (preferences u) (favorites u) (is_verified u) (is_active u).
Definition set_preferences v (u : t) :=
  mk (id u) (full_name u) (email u) (phone u) (password u) (role u)
     (home_address u) v (favorites u) (is_verified u) (is_active u).
Definition set_password v (u : t) :=
  mk (id u) (full_name u) (email u) (phone u) v (role u)
     (home_address u) (preferences u) (favorites u) (is_verified u) (is_active u).
Definition set_phone v (u : t) :=
  mk (id u) (full_name u) (email u) v (password u) (role u)
     (home_address u) (preferences u) (favorites u) (is_verified u) (is_active u).
Definition set_favorites v (u : t) :=
  mk (id u) (full_name u) (email u) (phone u) (password u) (role u)
     (home_address u) (preferences u) v (is_verified u) (is_active u).
Definition set_is_verified v (u : t) :=
  mk (id u) (full_name u) (email u) (phone u) (password u) (role u)
     (home_address u) (preferences u) (favorites u) v (is_active u).
Definition set_is_active v (u : t) :=
  mk (id u) (full_name u) (email u) (phone u) (password u) (role u)
     (home_address u) (preferences u) (favorites u) (is_verified u) v.
End User.

Module Driver.
Record t := mk {
  id : Z;
  user_id : Z;
  car_model : string;
  car_category : string;
  license_plate : string;
  description : option string;
  price_per_km : float;
  schedule : string;
  current_location : string;
  rating : float;
  is_online : bool;
  total_earnings : float
}.
Definition set_price_per_km v (d : t) :=
  mk (id d) (user_id d) (car_model d) (car_category d) (license_plate d)
     (description d) v (schedule d) (current_location d) (rating d)
     (is_online d) (total_earnings d).
Definition set_schedule v (d : t) :=
  mk (id d) (user_id d) (car_model d) (car_category d) (license_plate d)
     (description d) (price_per_km d) v (current_location d) (rating d)
     (is_online d) (total_earnings d).
Definition set_current_location v (d : t) :=
  mk (id d) (user_id d) (car_model d) (car_category d) (license_plate d)
     (description d) (price_per_km d) (schedule d) v (rating d)
     (is_online d) (total_earnings d).
Definition set_rating v (d : t) :=
  mk (id d) (user_id d) (car_model d) (car_category d) (license_plate d)
     (description d) (price_per_km d) (schedule d) (current_location d) v
     (is_online d) (total_earnings d).
Definition set_is_online v (d : t) :=
  mk (id d) (user_id d) (car_model d) (car_category d) (license_plate d)
     (description d) (price_per_km d) (schedule d) (current_location d)
     (rating d) v (total_earnings d).
Definition set_total_earnings v (d : t) :=
  mk (id d) (user_id d) (car_model d) (car_category d) (license_plate d)
     (description d) (price_per_km d) (schedule d) (current_location d)
     (rating d) (is_online d) v.
End Driver.

Module Trip.
Record t := mk {
  id : Z;
  client_id : Z;
  driver_id : option Z;
  pickup_location : string;
  destination : string;
  status : string;
  payment_status : string;
  is_shared : bool;
  seats_available : Z;
  is_urgent : bool;
  final_price : float;
  car_category : string
}.
Definition set_driver_id v (x : t) :=
  mk (id x) (client_id x) v (pickup_location x) (destination x) (status x)
     (payment_status x) (is_shared x) (seats_available x) (is_urgent x)
     (final_price x) (car_category x).
Definition set_status v (x : t) :=
  mk (id x) (client_id x) (driver_id x) (pickup_location x) (destination x) v
     (payment_status x) (is_shared x) (seats_available x) (is_urgent x)
     (final_price x) (car_category x).
Definition set_payment_status v (x : t) :=
  mk (id x) (client_id x) (driver_id x) (pickup_location x) (destination x)
     (status x) v (is_shared x) (seats_available x) (is_urgent x)
     (final_price x) (car_category x).
End Trip.

Module Review.
Record t := mk {
  id : Z;
  trip_id : Z;
  driver_id : option Z;
  client_name : string;
  rating : Z;
  comment : string
}.
End Review.

Module Message.
Record t := mk {
  id : Z;
  sender_id : Z;
  receiver_id : Z;
  content : string;
  timestamp : option string
}.
End Message.

Module PromoCode.
Record t := mk {
  id : Z;
  code : string;
  discount_percentage : Z;
  is_active : bool
}.
End PromoCode.

(** The request bodies of [schemas.py] that the handlers read. *)
Module Schemas.
Record UserCreate := mkUserCreate {
  email : string;
  full_name : string;
  phone : string;
  role : string;
  password : string
}.
Record TripCreate := mkTripCreate {
  client_id : Z;
  pickup_location : string;
  destination : string;
  car_category : string;
  final_price : float;
  is_urgent : bool;
  is_shared : bool
}.
End Schemas.

(** The six tables. *)
Record Store := mkStore {
  users : list User.t;
  drivers : list Driver.t;
  trips : list Trip.t;
  reviews : list Review.t;
  messages : list Message.t;
  promo_codes : list PromoCode.t
}.

Definition with_users v (st : Store) :=
  mkStore v (drivers st) (trips st) (reviews st) (messages st) (promo_codes st).
Definition with_drivers v (st : Store) :=
  mkStore (users st) v (trips st) (reviews st) (messages st) (promo_codes st).
Definition with_trips v (st : Store) :=
  mkStore (users st) (drivers st) v (reviews st) (messages st) (promo_codes st).
Definition with_reviews v (st : Store) :=
  mkStore (users st) (drivers st) (trips st) v (messages st) (promo_codes st).
Definition with_messages v (st : Store) :=
  mkStore (users st) (drivers st) (trips st) (reviews st) v (promo_codes st).
Definition with_promo_codes v (st : Store) :=
  mkStore (users st) (drivers st) (trips st) (reviews st) (messages st) v.

Definition empty_store : Store := mkStore [] [] [] [] [] [].

(** The primary key given to a new row: one more than the largest in use. *)
Definition next_id (ids : list Z) : Z := 1 + fold_right Z.max 0 ids.

(** [UPDATE table SET ... WHERE id = k]. *)
Definition update_where {A} (key : A -> Z) (k : Z) (f : A -> A) (l : list A) : list A :=
  map (fun x => if key x =? k then f x else x) l.

(** [DELETE FROM table WHERE id = k]. *)
Definition delete_where {A} (key : A -> Z) (k : Z) (l : list A) : list A :=
  filter (fun x => negb (key x =? k)) l.

(** ** Sessions ([database.py]) *)

(** What a handler can raise: the [HTTPException]s it raises itself, an
    attribute read on [None], and the violation of a unique index when the
    session is flushed. *)
Inductive exn :=
| HTTPException (status_code : Z) (detail : string)
| AttributeError (msg : string)
| IntegrityError (msg : string).

(** The values a handler returns (serialised to JSON by the framework). *)
Inductive json :=
| JNull
| JBool (b : bool)
| JInt (n : Z)
| JFloat (x : float)
| JStr (s : string)
| JList (l : list json)
| JDict (kv : list (string * json)).

(** A session of [SessionLocal] ([autocommit=False]): the persisted store
    and the session's own view of it, which holds the pending changes. *)
Record Session := mkSession { persisted : Store; working : Store }.

Definition M (A : Type) : Type := Session -> (A + exn) * Session.

Definition ret {A} (a : A) : M A := fun s => (inl a, s).

Definition bind {A B} (m : M A) (k : A -> M B) : M B :=
  fun s => match m s with
           | (inl a, s') => k a s'
           | (inr e, s') => (inr e, s')
           end.

Definition raise {A} (e : exn) : M A := fun s => (inr e, s).

Notation "x <- m ;; k" := (bind m (fun x => k))
  (at level 61, m at next level, right associativity).
Notation "m ;;; k" := (bind m (fun _ => k))
  (at level 61, right associativity).

(** [db.commit()]. *)
Definition commit : M unit :=
  fun s => (inl tt, mkSession (working s) (working s)).

(** [get_db]: a fresh session for the request, closed when the handler
    returns or raises; what was not committed is dropped. *)
Definition get_db {A} (handler : M A) (st : Store) : (A + exn) * Store :=
  let (r, s) := handler (mkSession st st) in (r, persisted s).

(** A mapped table: its rows in the store and its primary key. *)
Record table (A : Type) := mkTable {
  rows : Store -> list A;
  with_rows : list A -> Store -> Store;
  pk : A -> Z
}.
Arguments rows {A}.
Arguments with_rows {A}.
Arguments pk {A}.

Definition Users := mkTable User.t users with_users User.id.
Definition Drivers := mkTable Driver.t drivers with_drivers Driver.id.
Definition Trips := mkTable Trip.t trips with_trips Trip.id.
Definition Reviews := mkTable Review.t reviews with_reviews Review.id.
Definition Messages := mkTable Message.t messages with_messages Message.id.
Definition PromoCodes := mkTable PromoCode.t promo_codes with_promo_codes PromoCode.id.

(** [db.query(T).filter(p).all()] *)
Definition query_all {A} (T : table A) (p : A -> bool) : M (list A) :=
  fun s => (inl (filter p (rows T (working s))), s).

(** [db.query(T).filter(p).first()] *)
Definition query_first {A} (T : table A) (p : A -> bool) : M (option A) :=
  fun s => (inl (find p (rows T (working s))), s).

(** A many-to-one [relationship]: the row the foreign key points at,
    [None] for a null or dangling key. *)
Definition relationship {A} (T : table A) (fk : option Z) : M (option A) :=
  match fk with
  | Some k => query_first T (fun x => pk T x =? k)
  | None => ret None
  end.

(** [if not x: raise e] on the result of [first()]. *)
Definition if_not {A} (x : option A) (e : exn) : M A :=
  match x with Some a => ret a | None => raise e end.

(** [x.attr] where [x] may be [None]. *)
Definition getattr {A B} (x : option A) (f : A -> B) (name : string) : M B :=
  match x with
  | Some a => ret (f a)
  | None => raise (AttributeError
              ("'NoneType' object has no attribute '" ++ name ++ "'"))
  end.

(** [obj.attr = v] on the mapped object with primary key [k]. *)
Definition setattr {A} (T : table A) (k : Z) (f : A -> A) : M unit :=
  fun s => (inl tt,
            mkSession (persisted s)
              (with_rows T (update_where (pk T) k f (rows T (working s))) (working s))).

(** [db.add(obj)]: the row is appended under a fresh primary key, which is
    returned. *)
Definition add {A} (T : table A) (row : Z -> A) : M Z :=
  fun s => let k := next_id (map (pk T) (rows T (working s))) in
           (inl k,
            mkSession (persisted s)
              (with_rows T (rows T (working s) ++ [row k]) (working s))).

(** [db.delete(obj)]. *)
Definition delete {A} (T : table A) (k : Z) : M unit :=
  fun s => (inl tt,
            mkSession (persisted s)
              (with_rows T (delete_where (pk T) k (rows T (working s))) (working s))).

Definition when (b : bool) (m : M unit) : M unit := if b then m else ret tt.

Fixpoint mapM {A B} (f : A -> M B) (l : list A) : M (list B) :=
  match l with
  | [] => ret []
  | x :: xs => y <- f x ;; ys <- mapM f xs ;; ret (y :: ys)
  end.

Definition message (s : string) : json := JDict [("message", JStr s)].

Definition option_Z_eqb (a b : option Z) : bool :=
  match a, b with
  | Some x, Some y => x =? y
  | None, None => true
  | _, _ => false
  end.

(** [order_by(id.desc())] *)
Fixpoint insert_desc {A} (key : A -> Z) (x : A) (l : list A) : list A :=
  match l with
  | [] => [x]
  | y :: ys => if key y <? key x then x :: l else y :: insert_desc key x ys
  end.
Definition order_by_desc {A} (key : A -> Z) (l : list A) : list A :=
  fold_right (insert_desc key) [] l.

(** In a handler a mapped object is read through the row loaded by the
    query; the handlers never read back an attribute they have assigned.
    [db.refresh(obj)] reloads a row that was just committed and changes
    nothing; it has no counterpart below. *)

(** ** [api/auth.py] *)

Module Auth.

Definition register_user (user_in : Schemas.UserCreate) : M json :=
  existing_user <- query_first Users (fun u =>
      (User.email u =? Schemas.email user_in)%string
      || (User.phone u =? Schemas.phone user_in)%string) ;;
  match existing_user with
  | Some _ =>
      raise (HTTPException 400 "Email or phone number is already registered!")
  | None =>
      new_id <- add Users (fun k =>
          User.mk k (Schemas.full_name user_in) (Schemas.email user_in)
            (Schemas.phone user_in) (Schemas.password user_in)
            (Schemas.role user_in) None None None false true) ;;
      commit ;;;
      ret (JDict [("id", JInt new_id);
                  ("full_name", JStr (Schemas.full_name user_in));
                  ("role", JStr (Schemas.role user_in))])
  end.

Definition login (email password : string) : M json :=
  user <- query_first Users (fun u => (User.email u =? email)%string) ;;
  match user with
  | None => raise (HTTPException 401 "Incorrect email or password.")
  | Some user =>
      if negb (User.password user =? password)%string
      then raise (HTTPException 401 "Incorrect email or password.")
      else if negb (User.is_active user)
      then raise (HTTPException 403
                    "Account is blocked. Please contact an administrator.")
      else ret (JDict [("id", JInt (User.id user));
                       ("full_name", JStr (User.full_name user));
                       ("role", JStr (User.role user))])
  end.

End Auth.

(** ** [api/users.py] *)

Module UsersApi.

Definition update_user_settings (user_id : Z) (address prefs : option string)
  : M json :=
  user <- query_first Users (fun u => User.id u =? user_id) ;;
  user <- if_not user (HTTPException 404 "User not found") ;;
  when (Py.otruthy address)
    (setattr Users (User.id user) (User.set_home_address address)) ;;;
  when (Py.otruthy prefs)
    (setattr Users (User.id user) (User.set_preferences prefs)) ;;;
  commit ;;;
  ret (message "Profile updated successfully").

(** The flush of [update_user_security] is the one place where a unique
    index of [models.py] (users.phone) can be violated. *)
Definition flush_unique_phone (k : Z) (phone : string) : M unit :=
  others <- query_all Users (fun u =>
      negb (User.id u =? k) && (User.phone u =? phone)%string) ;;
  match others with
  | [] => ret tt
  | _ => raise (IntegrityError "UNIQUE constraint failed: users.phone")
  end.

Definition update_user_security (user_id : Z) (password : string)
    (new_password phone : option string) : M json :=
  user <- query_first Users (fun u => User.id u =? user_id) ;;
  match user with
  | None => raise (HTTPException 401 "Invalid current password!")
  | Some user =>
      if negb (User.password user =? password)%string
      then raise (HTTPException 401 "Invalid current password!")
      else
        match new_password with
        | Some p => when (Py.truthy p)
                      (setattr Users (User.id user) (User.set_password p))
        | None => ret tt
        end ;;;
        match phone with
        | Some p => when (Py.truthy p)
                      (setattr Users (User.id user) (User.set_phone p) ;;;
                       flush_unique_phone (User.id user) p)
        | None => ret tt
        end ;;;
        commit ;;;
        ret (message "Security settings updated successfully")
  end.

(** [user.favorites.split(",") if user.favorites else []] *)
Definition current_favorites (user : User.t) : list string :=
  match User.favorites user with
  | Some s => if Py.truthy s then Py.split "," s else []
  | None => []
  end.

Definition add_favorite_driver (user_id driver_id : Z) : M json :=
  user <- query_first Users (fun u => User.id u =? user_id) ;;
  user <- if_not user (HTTPException 404 "User not found") ;;
  let current_favorites := current_favorites user in
  if negb (existsb (String.eqb (Py.str driver_id)) current_favorites)
  then
    let current_favorites := (current_favorites ++ [Py.str driver_id])%list in
    setattr Users (User.id user)
      (User.set_favorites
         (Some (Py.strip (Ascii.eqb ",") (Py.join "," current_favorites)))) ;;;
    commit ;;;
    ret (message "Driver added to favorites")
  else ret (message "Driver is already in your favorites list").

End UsersApi.

(** ** [api/trips.py] *)

Module TripsApi.

Definition request_trip (trip_data : Schemas.TripCreate) : M json :=
  new_id <- add Trips (fun k =>
      Trip.mk k (Schemas.client_id trip_data) None
        (Schemas.pickup_location trip_data) (Schemas.destination trip_data)
        "searching" "pending" (Schemas.is_shared trip_data) 4
        (Schemas.is_urgent trip_data) (Schemas.final_price trip_data)
        (Schemas.car_category trip_data)) ;;
  commit ;;;
  ret (JDict [("message", JStr "Request accepted. Searching for a driver...");
              ("trip_id", JInt new_id)]).

Definition accept_trip (trip_id driver_id : Z) : M json :=
  driver <- query_first Drivers (fun d => Driver.id d =? driver_id) ;;
  _ <- if_not driver (HTTPException 404 "Driver not found.") ;;
  trip <- query_first Trips (fun t => Trip.id t =? trip_id) ;;
  trip <- if_not trip (HTTPException 404 "Trip not found.") ;;
  if negb (Trip.status trip =? "searching")%string
  then raise (HTTPException 400 "This trip is already taken or cancelled")
  else
    setattr Trips (Trip.id trip) (Trip.set_driver_id (Some driver_id)) ;;;
    setattr Trips (Trip.id trip) (Trip.set_status "accepted") ;;;
    commit ;;;
    ret (message "Trip accepted successfully").

Definition cancel_trip (trip_id : Z) : M json :=
  trip <- query_first Trips (fun t => Trip.id t =? trip_id) ;;
  trip <- if_not trip (HTTPException 404 "Request not found") ;;
  if existsb (String.eqb (Trip.status trip)) ["completed"; "cancelled"]
  then raise (HTTPException 400
                ("Cannot cancel a trip with status: " ++ Trip.status trip))
  else
    setattr Trips (Trip.id trip) (Trip.set_status "cancelled") ;;;
    commit ;;;
    ret (message "Trip cancelled successfully").

(** The active promo code named [code], if any. *)
Definition active_promo (code : string) : M (option PromoCode.t) :=
  query_first PromoCodes (fun p =>
      (PromoCode.code p =? code)%string && PromoCode.is_active p).

Definition calculate_price (original_price : float) (is_urgent : bool)
    (promo_code : option string) : M json :=
  let final_price := original_price in
  let final_price := if is_urgent then (final_price * 1.5)%float
                     else final_price in
  final_price <-
    match promo_code with
    | Some code =>
        if Py.truthy code then
          promo <- active_promo (Py.upper code) ;;
          match promo with
          | Some promo =>
              ret (final_price
                   - Py.truediv (PromoCode.discount_percentage promo) 100
                     * final_price)%float
          | None => ret final_price
          end
        else ret final_price
    | None => ret final_price
    end ;;
  ret (JDict [("final_price", JFloat (Py.round final_price 2))]).

Definition complete_and_process_payment (trip_id : Z) : M json :=
  trip <- query_first Trips (fun t => Trip.id t =? trip_id) ;;
  trip <- if_not trip (HTTPException 404 "Trip not found") ;;
  if (Trip.status trip =? "completed")%string
  then raise (HTTPException 400 "Trip has already been completed")
  else
    setattr Trips (Trip.id trip) (Trip.set_status "completed") ;;;
    setattr Trips (Trip.id trip) (Trip.set_payment_status "paid") ;;;
    let amount_to_pay :=
      if (0 <? Trip.final_price trip)%float then Trip.final_price trip
      else 10.0%float in
    driver <- relationship Drivers (Trip.driver_id trip) ;;
    match driver with
    | Some driver =>
        setattr Drivers (Driver.id driver) (fun d =>
            Driver.set_total_earnings
              (Driver.total_earnings d + amount_to_pay)%float d)
    | None => raise (HTTPException 400 "No driver assigned to this trip")
    end ;;;
    commit ;;;
    ret (message "Trip completed and payment processed successfully").

(** [trip.status == "searching" or not trip.driver]: loading [trip.driver]
    changes nothing, so it is loaded before the test. *)
Definition track_taxi_status (trip_id : Z) : M json :=
  trip <- query_first Trips (fun t => Trip.id t =? trip_id) ;;
  trip <- if_not trip (HTTPException 404 "Trip not found") ;;
  driver <- relationship Drivers (Trip.driver_id trip) ;;
  match (Trip.status trip =? "searching")%string, driver with
  | false, Some driver_info =>
      user_info <- relationship Users (Some (Driver.user_id driver_info)) ;;
      name <- getattr user_info User.full_name "full_name" ;;
      ret (JDict [("status", JStr (Trip.status trip));
                  ("driver_details",
                   JDict [("name", JStr name);
                          ("car", JStr (Driver.car_model driver_info));
                          ("plate", JStr (Driver.license_plate driver_info));
                          ("current_location",
                           JStr (Driver.current_location driver_info))]);
                  ("pickup_location", JStr (Trip.pickup_location trip));
                  ("destination", JStr (Trip.destination trip))])
  | _, _ =>
      ret (JDict [("status", JStr (Trip.status trip));
                  ("message",
                   JStr "Still searching for the nearest driver...")])
  end.

End TripsApi.

(** ** [api/reviews.py] *)

Module ReviewsApi.

(** SQL [avg] over an integer column: [NULL] on no rows, else the sum
    divided by the count, both as doubles. *)
Definition avg (l : list Z) : option float :=
  match l with
  | [] => None
  | _ => Some (PrimFloat.div (Py.float_of_int (fold_right Z.add 0 l))
                             (Py.float_of_int (Z.of_nat (List.length l))))
  end.

(** The second half of [leave_review]: the average of the driver's
    reviews is queried and, when there is one and the driver resolves,
    stored rounded to one decimal. *)
Definition recompute_rating (driver_id : option Z) : M unit :=
  of_driver <- query_all Reviews (fun r =>
      option_Z_eqb (Review.driver_id r) driver_id) ;;
  let avg_rating_result := avg (map Review.rating of_driver) in
  driver <- query_first Drivers (fun d =>
      option_Z_eqb (Some (Driver.id d)) driver_id) ;;
  match driver, avg_rating_result with
  | Some driver, Some a =>
      setattr Drivers (Driver.id driver) (Driver.set_rating (Py.round a 1)) ;;;
      commit
  | _, _ => ret tt
  end.

Definition leave_review (trip_id rating : Z) (comment : string) : M json :=
  trip <- query_first Trips (fun t => Trip.id t =? trip_id) ;;
  trip <- if_not trip (HTTPException 404 "Trip not found") ;;
  if negb (Trip.status trip =? "completed")%string
  then raise (HTTPException 400 "You can only rate completed trips")
  else
    client <- relationship Users (Some (Trip.client_id trip)) ;;
    client_name <- getattr client User.full_name "full_name" ;;
    let driver_id := Trip.driver_id trip in
    review_id <- add Reviews (fun k =>
        Review.mk k trip_id driver_id client_name rating comment) ;;
    commit ;;;
    recompute_rating driver_id ;;;
    ret (JDict [("review_id", JInt review_id);
                ("message",
                 JStr ("Thank you for your feedback, " ++ client_name ++ "!"))]).

End ReviewsApi.

(** ** [api/drivers.py] *)

Module DriversApi.

Definition setup_driver (user_id : Z) (car_model license_plate : string)
  : M json :=
  user <- query_first Users (fun u => User.id u =? user_id) ;;
  user <- if_not user (HTTPException 404 "User not found.") ;;
  if negb (User.role user =? "driver")%string
  then raise (HTTPException 400 "User does not have permission to be a driver")
  else
    driver <- query_first Drivers (fun d => Driver.user_id d =? user_id) ;;
    match driver with
    | Some driver =>
        ret (JDict [("message", JStr "Driver profile is already set up");
                    ("driver_id", JInt (Driver.id driver))])
    | None =>
        new_id <- add Drivers (fun k =>
            Driver.mk k user_id car_model "Economy" license_plate None
              1.20%float "24/7" "Център" 5.0%float false 0.0%float) ;;
        commit ;;;
        ret (JDict [("message", JStr "Driver profile is ready for use");
                    ("driver_id", JInt new_id)])
    end.

Definition manage_service (driver_id : Z) (price : option float)
    (schedule location : option string) : M json :=
  driver <- query_first Drivers (fun d => Driver.id d =? driver_id) ;;
  driver <- if_not driver (HTTPException 404 "Driver not found") ;;
  match price with
  | Some p => setattr Drivers (Driver.id driver) (Driver.set_price_per_km p)
  | None => ret tt
  end ;;;
  match schedule with
  | Some v => when (Py.truthy v)
                (setattr Drivers (Driver.id driver) (Driver.set_schedule v))
  | None => ret tt
  end ;;;
  match location with
  | Some v => when (Py.truthy v)
                (setattr Drivers (Driver.id driver)
                   (Driver.set_current_location v))
  | None => ret tt
  end ;;;
  commit ;;;
  ret (message "Service parameters updated successfully").

Definition update_status (driver_id : Z) : M json :=
  driver <- query_first Drivers (fun d => Driver.id d =? driver_id) ;;
  driver <- if_not driver (HTTPException 404 "Driver not found.") ;;
  setattr Drivers (Driver.id driver)
    (Driver.set_is_online (negb (Driver.is_online driver))) ;;;
  commit ;;;
  ret (message "Shift status updated successfully").

Definition get_driver_earnings (driver_id : Z) : M json :=
  driver <- query_first Drivers (fun d => Driver.id d =? driver_id) ;;
  driver <- if_not driver
    (HTTPException 404 ("Driver with ID " ++ Py.str driver_id ++ " not found")) ;;
  done <- query_all Trips (fun t =>
      option_Z_eqb (Trip.driver_id t) (Some driver_id)
      && (Trip.status t =? "completed")%string) ;;
  ret (JDict [("balance", JFloat (Py.round (Driver.total_earnings driver) 2));
              ("trips_count", JInt (Z.of_nat (List.length done)))]).

Definition update_location (driver_id : Z) (new_location : string) : M json :=
  driver <- query_first Drivers (fun d => Driver.id d =? driver_id) ;;
  driver <- if_not driver (HTTPException 404 "Driver not found.") ;;
  setattr Drivers (Driver.id driver) (Driver.set_current_location new_location) ;;;
  commit ;;;
  ret (message "Location updated successfully").

Definition get_driver_reviews (driver_id : Z) : M json :=
  driver <- query_first Drivers (fun d => Driver.id d =? driver_id) ;;
  _ <- if_not driver (HTTPException 404 "Driver not found.") ;;
  found <- query_all Reviews (fun r =>
      option_Z_eqb (Review.driver_id r) (Some driver_id)) ;;
  let result := map (fun review =>
      JDict [("client_name", JStr (Review.client_name review));
             ("rating", JInt (Review.rating review));
             ("comment", JStr (Review.comment review))]) found in
  ret (JDict [("total_reviews", JInt (Z.of_nat (List.length result)));
              ("reviews", JList result)]).

End DriversApi.

(** ** [api/messages.py] *)

Module MessagesApi.

Definition send_message (sender_id receiver_id : Z) (content : string)
  : M json :=
  if negb (Py.truthy (Py.strip Py.isspace content))
  then raise (HTTPException 400 "Message content cannot be empty.")
  else
    new_id <- add Messages (fun k =>
        Message.mk k sender_id receiver_id content None) ;;
    commit ;;;
    ret (JDict [("message", JStr "Message sent successfully");
                ("message_id", JInt new_id)]).

Definition json_of_option_string (o : option string) : json :=
  match o with Some s => JStr s | None => JNull end.

Definition get_my_messages (user_id : Z) : M json :=
  user_exists <- query_first Users (fun u => User.id u =? user_id) ;;
  _ <- if_not user_exists (HTTPException 404 "User not found.") ;;
  received <- query_all Messages (fun m => Message.receiver_id m =? user_id) ;;
  result <- mapM (fun msg =>
      sender <- relationship Users (Some (Message.sender_id msg)) ;;
      sender_name <- getattr sender User.full_name "full_name" ;;
      ret (JDict [("id", JInt (Message.id msg));
                  ("content", JStr (Message.content msg));
                  ("timestamp", json_of_option_string (Message.timestamp msg));
                  ("sender_id", JInt (Message.sender_id msg));
                  ("sender_name", JStr sender_name)]))
    (order_by_desc Message.id received) ;;
  ret (JDict [("count", JInt (Z.of_nat (List.length result)));
              ("messages", JList result)]).

End MessagesApi.

(** ** [api/guests.py] *)

Module GuestsApi.

Definition get_driver_public_profile (driver_id : Z) : M json :=
  driver <- query_first Drivers (fun d => Driver.id d =? driver_id) ;;
  driver <- if_not driver
    (HTTPException 404 ("Driver with ID " ++ Py.str driver_id ++ " not found")) ;;
  user <- relationship Users (Some (Driver.user_id driver)) ;;
  name <- getattr user User.full_name "full_name" ;;
  ret (JDict [("id", JInt (Driver.id driver));
              ("full_name", JStr name);
              ("car_model", JStr (Driver.car_model driver));
              ("car_category", JStr (Driver.car_category driver));
              ("rating", JFloat (Py.round (Driver.rating driver) 1));
              ("location", JStr (Driver.current_location driver));
              ("price_per_km", JFloat (Driver.price_per_km driver))]).

End GuestsApi.

(** ** [api/admin.py] *)

Module AdminApi.

Definition verify_driver (user_id : Z) : M json :=
  user <- query_first Users (fun u => User.id u =? user_id) ;;
  user <- if_not user (HTTPException 404 "User not found in the database.") ;;
  setattr Users (User.id user) (User.set_is_verified true) ;;;
  commit ;;;
  ret (message ("Driver " ++ User.full_name user ++ " is verified.")).

Definition block_user (user_id : Z) : M json :=
  user <- query_first Users (fun u => User.id u =? user_id) ;;
  user <- if_not user (HTTPException 404 "User is not found") ;;
  setattr Users (User.id user) (User.set_is_active false) ;;;
  commit ;;;
  ret (message ("User " ++ User.full_name user ++ " is blocked.")).

Definition delete_review (review_id : Z) : M json :=
  review <- query_first Reviews (fun r => Review.id r =? review_id) ;;
  review <- if_not review (HTTPException 404 "Review is not found.") ;;
  delete Reviews (Review.id review) ;;;
  commit ;;;
  ret (message "Review removed successfully.").

Definition create_promo_code (code : string) (discount : Z) : M json :=
  existing <- query_first PromoCodes (fun p =>
      (PromoCode.code p =? Py.upper code)%string) ;;
  match existing with
  | Some _ => raise (HTTPException 400 "This code already exists")
  | None =>
      _ <- add PromoCodes (fun k =>
          PromoCode.mk k (Py.upper code) discount true) ;;
      commit ;;;
      ret (message ("Promo-code " ++ Py.upper code ++ " is active."))
  end.

Definition delete_promo_code (code : string) : M json :=
  promo <- query_first PromoCodes (fun p =>
      (PromoCode.code p =? Py.upper code)%string) ;;
  promo <- if_not promo (HTTPException 404 "Promo code not found.") ;;
  delete PromoCodes (PromoCode.id promo) ;;;
  commit ;;;
  ret (message ("Promo code " ++ Py.upper code ++ " has been deleted.")).

End AdminApi.

(** ** The API surface ([main.py]) *)

(** The endpoints that raise an [HTTPException] or commit, and
    [calculate_price].  The remaining endpoints (listings, rankings,
    statistics, pages) only read the store and raise nothing of their
    own. *)
Inductive request :=
| RegisterUser (user_in : Schemas.UserCreate)
| Login (email password : string)
| UpdateSettings (user_id : Z) (address prefs : option string)
| UpdateSecurity (user_id : Z) (password : string)
    (new_password phone : option string)
| AddFavorite (user_id driver_id : Z)
| SetupDriver (user_id : Z) (car_model license_plate : string)
| ManageService (driver_id : Z) (price : option float)
    (schedule location : option string)
| ToggleShift (driver_id : Z)
| DriverEarnings (driver_id : Z)
| UpdateLocation (driver_id : Z) (new_location : string)
| DriverReviews (driver_id : Z)
| RequestTrip (trip_data : Schemas.TripCreate)
| Accept (trip_id driver_id : Z)
| Cancel (trip_id : Z)
| CalculatePrice (original_price : float) (is_urgent : bool)
    (promo_code : option string)
| Complete (trip_id : Z)
| TrackStatus (trip_id : Z)
| LeaveReview (trip_id rating : Z) (comment : string)
| SendMessage (sender_id receiver_id : Z) (content : string)
| MyMessages (user_id : Z)
| DriverProfile (driver_id : Z)
| VerifyDriver (user_id : Z)
| BlockUser (user_id : Z)
| DeleteReview (review_id : Z)
| CreatePromoCode (code : string) (discount : Z)
| DeletePromoCode (code : string).

Definition handler (r : request) : M json :=
  match r with
  | RegisterUser user_in => Auth.register_user user_in
  | Login email password => Auth.login email password
  | UpdateSettings user_id address prefs =>
      UsersApi.update_user_settings user_id address prefs
  | UpdateSecurity user_id password new_password phone =>
      UsersApi.update_user_security user_id password new_password phone
  | AddFavorite user_id driver_id => UsersApi.add_favorite_driver user_id driver_id
  | SetupDriver user_id car_model license_plate =>
      DriversApi.setup_driver user_id car_model license_plate
  | ManageService driver_id price schedule location =>
      DriversApi.manage_service driver_id price schedule location
  | ToggleShift driver_id => DriversApi.update_status driver_id
  | DriverEarnings driver_id => DriversApi.get_driver_earnings driver_id
  | UpdateLocation driver_id new_location =>
      DriversApi.update_location driver_id new_location
  | DriverReviews driver_id => DriversApi.get_driver_reviews driver_id
  | RequestTrip trip_data => TripsApi.request_trip trip_data
  | Accept trip_id driver_id => TripsApi.accept_trip trip_id driver_id
  | Cancel trip_id => TripsApi.cancel_trip trip_id
  | CalculatePrice original_price is_urgent promo_code =>
      TripsApi.calculate_price original_price is_urgent promo_code
  | Complete trip_id => TripsApi.complete_and_process_payment trip_id
  | TrackStatus trip_id => TripsApi.track_taxi_status trip_id
  | LeaveReview trip_id rating comment =>
      ReviewsApi.leave_review trip_id rating comment
  | SendMessage sender_id receiver_id content =>
      MessagesApi.send_message sender_id receiver_id content
  | MyMessages user_id => MessagesApi.get_my_messages user_id
  | DriverProfile driver_id => GuestsApi.get_driver_public_profile driver_id
  | VerifyDriver user_id => AdminApi.verify_driver user_id
  | BlockUser user_id => AdminApi.block_user user_id
  | DeleteReview review_id => AdminApi.delete_review review_id
  | CreatePromoCode code discount => AdminApi.create_promo_code code discount
  | DeletePromoCode code => AdminApi.delete_promo_code code
  end.

(** One request served against the persisted store: the response or the
    error, and the store afterwards. *)
Definition serve (r : request) (st : Store) : (json + exn) * Store :=
  get_db (handler r) st.

(** ** Reading the store *)

Definition find_user (st : Store) (k : Z) : option User.t :=
  find (fun u => User.id u =? k) (users st).
Definition find_driver (st : Store) (k : Z) : option Driver.t :=
  find (fun d => Driver.id d =? k) (drivers st).
Definition find_trip (st : Store) (k : Z) : option Trip.t :=
  find (fun t => Trip.id t =? k) (trips st).

(** A request succeeds when it returns a response. *)
Definition succeeds (out : (json + exn) * Store) : Prop :=
  exists v st', out = (inl v, st').

(** ** Sample data *)

Definition alice : User.t :=
  User.mk 1 "Alice Smith" "alice@test.com" "0888111222" "secret" "client.html"
    None None None false true.
Definition ivan : User.t :=
  User.mk 2 "Ivan Ivanov" "ivan@test.com" "0888000000" "hunter2" "driver"
    None None (Some "10,11") true true.
Definition mallory : User.t :=
  User.mk 3 "Mallory" "mallory@test.com" "0888999999" "letmein" "client.html"
    None None None false false.

Definition tesla : Driver.t :=
  Driver.mk 1 2 "Tesla" "Economy" "CB1234AB" None 1.20%float "24/7" "Sofia"
    5.0%float true 0.0%float.

Definition trip_in (k : Z) (client : Z) (driver : option Z) (status : string)
    (price : float) : Trip.t :=
  Trip.mk k client driver "A" "B" status "pending" false 4 false price "Standard".

Definition sample_store : Store :=
  mkStore [alice; ivan; mallory] [tesla]
    [trip_in 1 1 None "searching" 10.0%float;
     trip_in 2 1 (Some 1) "accepted" 25.0%float;
     trip_in 3 1 (Some 1) "completed" 25.0%float;
     trip_in 4 1 (Some 1) "cancelled" 25.0%float;
     trip_in 5 1 None "accepted" 10.0%float;
     trip_in 6 1 (Some 1) "accepted" 0.0%float;
     trip_in 7 99 (Some 1) "completed" 12.0%float]
    [Review.mk 1 3 (Some 1) "Alice Smith" 5 "Great"]
    []
    [PromoCode.mk 1 "SALE" 10 true; PromoCode.mk 2 "OLD" 50 false].

(** ** Vocabulary of the statements and tactics of the proofs *)

(** Unfolding a handler down to the store. *)
Ltac run_handler :=
  unfold serve, get_db, handler;
  cbv beta iota delta
    [Auth.register_user Auth.login
     UsersApi.update_user_settings UsersApi.update_user_security
     UsersApi.add_favorite_driver UsersApi.flush_unique_phone
     DriversApi.setup_driver DriversApi.manage_service
     DriversApi.update_status DriversApi.get_driver_earnings
     DriversApi.update_location DriversApi.get_driver_reviews
     TripsApi.request_trip TripsApi.accept_trip TripsApi.cancel_trip
     TripsApi.calculate_price TripsApi.active_promo
     TripsApi.complete_and_process_payment TripsApi.track_taxi_status
     ReviewsApi.leave_review ReviewsApi.recompute_rating
     MessagesApi.send_message MessagesApi.get_my_messages
     GuestsApi.get_driver_public_profile
     AdminApi.verify_driver AdminApi.block_user AdminApi.delete_review
     AdminApi.create_promo_code AdminApi.delete_promo_code
     bind ret raise commit query_first query_all relationship if_not getattr
     setattr add delete when
     Users Drivers Trips Reviews Messages PromoCodes rows with_rows pk];
  cbn [working persisted].

(** Normal form of a store expression: the six tables spelled out. *)
Ltac store_simpl :=
  cbn [users drivers trips reviews messages promo_codes
       with_users with_drivers with_trips with_reviews with_messages
       with_promo_codes working persisted fst snd] in *.

(** The trip once [driver_id] has accepted it. *)
Definition accepted_by (driver_id : Z) (t : Trip.t) : Trip.t :=
  Trip.set_status "accepted" (Trip.set_driver_id (Some driver_id) t).

(** A request fails when it raises. *)
Definition fails (out : (json + exn) * Store) : Prop :=
  exists e st', out = (inr e, st').

(** The statuses the lifecycle ends in. *)
Definition terminal (status : string) : Prop :=
  status = "completed" \/ status = "cancelled".

(** [trip.final_price if trip.final_price > 0 else 10.0] *)
Definition amount_to_pay (t : Trip.t) : float :=
  if (0 <? Trip.final_price t)%float then Trip.final_price t else 10.0%float.

(** The trip once completed, and the driver once credited. *)
Definition completed_and_paid (t : Trip.t) : Trip.t :=
  Trip.set_payment_status "paid" (Trip.set_status "completed" t).

Definition credited (amount : float) (d : Driver.t) : Driver.t :=
  Driver.set_total_earnings (Driver.total_earnings d + amount)%float d.

(** [trip.driver] *)
Definition trip_driver (st : Store) (t : Trip.t) : option Driver.t :=
  match Trip.driver_id t with
  | Some k => find_driver st k
  | None => None
  end.

(** Requests served one after the other. *)
Definition serve_all (rs : list request) (st : Store) : Store :=
  fold_left (fun st r => snd (serve r st)) rs st.

(** The stored status of a trip. *)
Definition status_of (st : Store) (trip_id : Z) : option string :=
  option_map Trip.status (find_trip st trip_id).

(** A computation that only reads leaves the session as it found it. *)
Definition read_only {A} (m : M A) : Prop := forall s, snd (m s) = s.

(** Case analysis on what a handler looked up. *)
Ltac split_lookups H :=
  repeat (cbn [working persisted negb andb orb] in H;
          match type of H with
          | context [find ?p ?l] => destruct (find p l) eqn:?
          | context [filter ?p ?l] => destruct (filter p l) eqn:?
          | context [String.eqb ?a ?b] => destruct (String.eqb a b) eqn:?
          | context [existsb ?p ?l] => destruct (existsb p l) eqn:?
          | context [Py.otruthy ?x] => destruct (Py.otruthy x) eqn:?
          | context [Py.truthy ?x] => destruct (Py.truthy x) eqn:?
          | context [User.is_active ?x] => destruct (User.is_active x) eqn:?
          | context [ReviewsApi.avg ?x] => destruct (ReviewsApi.avg x) eqn:?
          | context [match ?x with Some _ => _ | None => _ end] =>
              destruct x eqn:?
          end).

(** The row [register_user] inserts. *)
Definition registered (k : Z) (user_in : Schemas.UserCreate) : User.t :=
  User.mk k (Schemas.full_name user_in) (Schemas.email user_in)
    (Schemas.phone user_in) (Schemas.password user_in) (Schemas.role user_in)
    None None None false true.

(** Some existing user has the email or the phone of the registration. *)
Definition taken (st : Store) (user_in : Schemas.UserCreate) : Prop :=
  exists u, In u (users st) /\
            (User.email u = Schemas.email user_in \/
             User.phone u = Schemas.phone user_in).




(** The ratings of the reviews stored for a driver. *)
Definition ratings_of (st : Store) (driver_id : option Z) : list Z :=
  map Review.rating
    (filter (fun r => option_Z_eqb (Review.driver_id r) driver_id) (reviews st)).


(** The store after the rating of [driver_id] has been recomputed. *)
Definition rating_recomputed (st : Store) (driver_id : option Z) : Store :=
  match find (fun d => option_Z_eqb (Some (Driver.id d)) driver_id) (drivers st),
        ReviewsApi.avg (ratings_of st driver_id) with
  | Some d, Some a =>
      with_drivers
        (update_where Driver.id (Driver.id d) (Driver.set_rating (Py.round a 1))
           (drivers st)) st
  | _, _ => st
  end.

Definition review_response (review_id : Z) (client_name : string) : json :=
  JDict [("review_id", JInt review_id);
         ("message",
          JStr ("Thank you for your feedback, " ++ client_name ++ "!"))].

(** The separator of the favorites field. *)
Definition comma : ascii := ",".
Definition is_comma : ascii -> bool := Ascii.eqb comma.

Fixpoint no_comma (s : string) : Prop :=
  match s with
  | EmptyString => True
  | String c s' => c <> comma /\ no_comma s'
  end.

(** An entry of a favorites list: non-empty and without a comma. *)
Definition token (s : string) : Prop := s <> EmptyString /\ no_comma s.

(** The last character of a non-empty string is not stripped by [p]. *)
Fixpoint ends_clean (p : ascii -> bool) (s : string) : Prop :=
  match s with
  | EmptyString => True
  | String c EmptyString => p c = false
  | String _ s' => ends_clean p s'
  end.

(** The favorites string written when [driver_id] is added. *)
Definition favorites_with (u : User.t) (driver_id : Z) : string :=
  Py.strip (Ascii.eqb ",")
    (Py.join "," (UsersApi.current_favorites u ++ [Py.str driver_id])).

(** ** The listing endpoints *)

(** The endpoints below only read.  A mapped row returned as such is
    serialised by the framework column by column. *)
Module Listings.







(** [order_by(id.asc())] *)
Fixpoint insert_asc {A} (key : A -> Z) (x : A) (l : list A) : list A :=
  match l with
  | [] => [x]
  | y :: ys => if key x <? key y then x :: l else y :: insert_asc key x ys
  end.
Definition order_by_asc {A} (key : A -> Z) (l : list A) : list A :=
  fold_right (insert_asc key) [] l.

(** [api/messages.py] *)
Definition chat_entry (user_one_id : Z) (msg : Message.t) : M json :=
  sender <- relationship Users (Some (Message.sender_id msg)) ;;
  sender_name <- getattr sender User.full_name "full_name" ;;
  ret (JDict [("sender_name", JStr sender_name);
              ("content", JStr (Message.content msg));
              ("is_me", JBool (Message.sender_id msg =? user_one_id))]).

Definition get_chat_history (user_one_id user_two_id : Z) : M json :=
  let cond_1 (m : Message.t) :=
    (Message.sender_id m =? user_one_id)
    && (Message.receiver_id m =? user_two_id) in
  let cond_2 (m : Message.t) :=
    (Message.sender_id m =? user_two_id)
    && (Message.receiver_id m =? user_one_id) in
  messages <- query_all Messages (fun m => cond_1 m || cond_2 m) ;;
  history <- mapM (chat_entry user_one_id) (order_by_asc Message.id messages) ;;
  ret (JDict [("chat_history", JList history)]).




(** [api/admin.py] *)
Definition get_unverified_drivers : M json :=
  drivers <- query_all Users (fun u =>
      (User.role u =? "driver")%string && negb (User.is_verified u)) ;;
  ret (JDict [("drivers",
               JList (map (fun d => JDict [("user_id", JInt (User.id d));
                                           ("full_name", JStr (User.full_name d))])
                          drivers))]).

(** [review.driver.user.full_name] *)
Definition all_reviews_entry (review : Review.t) : M json :=
  driver <- relationship Drivers (Review.driver_id review) ;;
  user_id <- getattr driver Driver.user_id "user" ;;
  user <- relationship Users (Some user_id) ;;
  driver_name <- getattr user User.full_name "full_name" ;;
  ret (JDict [("id", JInt (Review.id review));
              ("trip_id", JInt (Review.trip_id review));
              ("client_name", JStr (Review.client_name review));
              ("driver_name", JStr driver_name);
              ("rating", JInt (Review.rating review));
              ("comment", JStr (Review.comment review))]).

Definition get_all_reviews : M json :=
  reviews <- query_all Reviews (fun _ => true) ;;
  result <- mapM all_reviews_entry reviews ;;
  ret (JDict [("all reviews", JList result)]).

End Listings.

(** ** The favorites listing ([api/users.py]) *)

(** [int(s)] on an ASCII string, base 10: white space around, one optional
    sign, then digits, where single underscores may stand between digits.
    [None] stands for the [ValueError]. *)
Module PyInt.

Definition is_digit (c : ascii) : bool :=
  let n := nat_of_ascii c in ((48 <=? n) && (n <=? 57))%nat.

Fixpoint grouped (after_digit : bool) (s : string) : bool :=
  match s with
  | EmptyString => after_digit
  | String c s' =>
      if is_digit c then grouped true s'
      else if Ascii.eqb c "_" then after_digit && grouped false s'
      else false
  end.

Fixpoint ungroup (s : string) : string :=
  match s with
  | EmptyString => EmptyString
  | String c s' => if Ascii.eqb c "_" then ungroup s' else String c (ungroup s')
  end.

Definition int (s : string) : option Z :=
  let s := Py.strip Py.isspace s in
  let (negative, body) :=
    match s with
    | String "-" r => (true, r)
    | String "+" r => (false, r)
    | _ => (false, s)
    end in
  if grouped false body then
    match NilEmpty.uint_of_string (ungroup body) with
    | Some u => Some (if negative then - Z.of_uint u else Z.of_uint u)
    | None => None
    end
  else None.

End PyInt.

Module Favorites.





End Favorites.

(** ** Vocabulary of the further properties *)

(** The primary keys of every table are pairwise distinct. *)
Definition keys_unique (st : Store) : Prop :=
  NoDup (map User.id (users st)) /\
  NoDup (map Driver.id (drivers st)) /\
  NoDup (map Trip.id (trips st)) /\
  NoDup (map Review.id (reviews st)) /\
  NoDup (map Message.id (messages st)) /\
  NoDup (map PromoCode.id (promo_codes st)).

(** Case analysis on what a handler looked up, in the goal. *)
Ltac split_lookups_goal :=
  repeat (cbn [working persisted negb andb orb];
          match goal with
          | |- context [find ?p ?l] => destruct (find p l) eqn:?
          | |- context [filter ?p ?l] => destruct (filter p l) eqn:?
          | |- context [String.eqb ?a ?b] => destruct (String.eqb a b) eqn:?
          | |- context [existsb ?p ?l] => destruct (existsb p l) eqn:?
          | |- context [Py.otruthy ?x] => destruct (Py.otruthy x) eqn:?
          | |- context [Py.truthy ?x] => destruct (Py.truthy x) eqn:?
          | |- context [User.is_active ?x] => destruct (User.is_active x) eqn:?
          | |- context [ReviewsApi.avg ?x] => destruct (ReviewsApi.avg x) eqn:?
          | |- context [match ?x with Some _ => _ | None => _ end] =>
              destruct x eqn:?
          end);
  cbn [working persisted negb andb orb].

(** How one request may change a table whose rows are never deleted: the
    rows stay in place, each changed within [R], and at most one row is
    added, under the next primary key and satisfying [N]. *)
Definition evolves {A} (key : A -> Z) (R : A -> A -> Prop) (N : A -> Prop)
    (l l' : list A) : Prop :=
  exists l1 news,
    l' = (l1 ++ news)%list /\ Forall2 R l l1 /\
    (news = [] \/
     exists x, news = [x] /\ key x = next_id (map key l) /\ N x).

(** What no request changes in a user, and the two flags that only move one
    way: a blocked user stays blocked, a verified one stays verified. *)
Definition user_kept (u u' : User.t) : Prop :=
  User.id u' = User.id u /\
  User.full_name u' = User.full_name u /\
  User.email u' = User.email u /\
  User.role u' = User.role u /\
  (User.is_active u = false -> User.is_active u' = false) /\
  (User.is_verified u = true -> User.is_verified u' = true).

(** A user as registered in [st]: active, unverified, without favorites,
    under an email and a phone that no user of [st] has. *)
Definition user_new (st : Store) (u : User.t) : Prop :=
  User.home_address u = None /\ User.preferences u = None /\
  User.favorites u = None /\ User.is_verified u = false /\
  User.is_active u = true /\
  ~ In (User.email u) (map User.email (users st)) /\
  ~ In (User.phone u) (map User.phone (users st)).

(** What no request changes in a driver. *)
Definition driver_kept (d d' : Driver.t) : Prop :=
  Driver.id d' = Driver.id d /\
  Driver.user_id d' = Driver.user_id d /\
  Driver.car_model d' = Driver.car_model d /\
  Driver.car_category d' = Driver.car_category d /\
  Driver.license_plate d' = Driver.license_plate d /\
  Driver.description d' = Driver.description d.

(** A driver profile as set up. *)
Definition driver_new (d : Driver.t) : Prop :=
  Driver.rating d = 5.0%float /\ Driver.total_earnings d = 0.0%float /\
  Driver.is_online d = false.

(** What no request changes in a trip. *)
Definition trip_kept (t t' : Trip.t) : Prop :=
  Trip.id t' = Trip.id t /\
  Trip.client_id t' = Trip.client_id t /\
  Trip.pickup_location t' = Trip.pickup_location t /\
  Trip.destination t' = Trip.destination t /\
  Trip.is_shared t' = Trip.is_shared t /\
  Trip.seats_available t' = Trip.seats_available t /\
  Trip.is_urgent t' = Trip.is_urgent t /\
  Trip.final_price t' = Trip.final_price t /\
  Trip.car_category t' = Trip.car_category t.

(** A trip as requested. *)
Definition trip_new (t : Trip.t) : Prop :=
  Trip.status t = "searching" /\ Trip.payment_status t = "pending" /\
  Trip.driver_id t = None.

(** The driver a trip names exists in the store. *)
Definition driver_resolves (st : Store) (t : Trip.t) : Prop :=
  exists k, Trip.driver_id t = Some k /\ find_driver st k <> None.

(** The moves of one request on a stored trip: none, searching to accepted
    (by an existing driver), anything but completed or cancelled to
    cancelled, anything but completed to completed and paid (the trip's
    driver existing). *)
Definition trip_step (st : Store) (t t' : Trip.t) : Prop :=
  trip_kept t t' /\
  (t' = t \/
   (Trip.status t = "searching" /\ Trip.status t' = "accepted" /\
    Trip.payment_status t' = Trip.payment_status t /\
    driver_resolves st t') \/
   (~ terminal (Trip.status t) /\ Trip.status t' = "cancelled" /\
    Trip.payment_status t' = Trip.payment_status t /\
    Trip.driver_id t' = Trip.driver_id t) \/
   (Trip.status t <> "completed" /\ Trip.status t' = "completed" /\
    Trip.payment_status t' = "paid" /\
    Trip.driver_id t' = Trip.driver_id t /\ driver_resolves st t)).

(** The unique indexes of the schema hold: primary keys, user emails, user
    phones and promo codes are pairwise distinct. *)
Definition integrity (st : Store) : Prop :=
  keys_unique st /\
  NoDup (map User.email (users st)) /\
  NoDup (map User.phone (users st)) /\
  NoDup (map PromoCode.code (promo_codes st)).

(** A trip in one of the four states the handlers produce: searching
    (unpaid, no driver), accepted (unpaid, by an existing driver), cancelled
    (unpaid), completed (paid, its driver existing). *)
Definition trip_consistent (st : Store) (t : Trip.t) : Prop :=
  (Trip.status t = "searching" /\ Trip.payment_status t = "pending" /\
   Trip.driver_id t = None) \/
  (Trip.status t = "accepted" /\ Trip.payment_status t = "pending" /\
   driver_resolves st t) \/
  (Trip.status t = "cancelled" /\ Trip.payment_status t = "pending") \/
  (Trip.status t = "completed" /\ Trip.payment_status t = "paid" /\
   driver_resolves st t).

Definition trips_consistent (st : Store) : Prop :=
  Forall (trip_consistent st) (trips st).

(** The entry of a chat history as the other participant sees it. *)
Definition flip_is_me (entry : json) : json :=
  match entry with
  | JDict [(sender_name, name); (content, text); (is_me, JBool b)] =>
      JDict [(sender_name, name); (content, text); (is_me, JBool (negb b))]
  | _ => entry
  end.

(** Every driver profile belongs to a user with the role of a driver, and
    no user has two. *)
Definition has_driver_account (st : Store) (d : Driver.t) : Prop :=
  exists u, find_user st (Driver.user_id d) = Some u /\ User.role u = "driver".

Definition driver_accounts (st : Store) : Prop :=
  Forall (has_driver_account st) (drivers st) /\
  NoDup (map Driver.user_id (drivers st)).

(** A driver profile as set up in [st]. *)
Definition driver_set_up (st : Store) (d : Driver.t) : Prop :=
  driver_new d /\ has_driver_account st d /\
  ~ In (Driver.user_id d) (map Driver.user_id (drivers st)).




(** An entry of the list of unverified drivers that is about user [uid]. *)
Definition queued_as (uid : Z) (entry : json) : bool :=
  match entry with
  | JDict ((_, JInt k) :: _) => k =? uid
  | _ => false
  end.

(** The tables a request may write. *)
Inductive table_name :=
| TUsers | TDrivers | TTrips | TReviews | TMessages | TPromoCodes.

Definition writes (r : request) : list table_name :=
  match r with
  | RegisterUser _ | UpdateSettings _ _ _ | UpdateSecurity _ _ _ _
  | AddFavorite _ _ | VerifyDriver _ | BlockUser _ => [TUsers]
  | SetupDriver _ _ _ | ManageService _ _ _ _ | ToggleShift _
  | UpdateLocation _ _ => [TDrivers]
  | RequestTrip _ | Accept _ _ | Cancel _ => [TTrips]
  | Complete _ => [TTrips; TDrivers]
  | LeaveReview _ _ _ => [TReviews; TDrivers]
  | DeleteReview _ => [TReviews]
  | SendMessage _ _ _ => [TMessages]
  | CreatePromoCode _ _ | DeletePromoCode _ => [TPromoCodes]
  | Login _ _ | DriverEarnings _ | DriverReviews _ | CalculatePrice _ _ _
  | TrackStatus _ | MyMessages _ | DriverProfile _ => []
  end.

(** The driver a review names exists in the store. *)
Definition review_resolves (st : Store) (r : Review.t) : Prop :=
  exists k, Review.driver_id r = Some k /\ find_driver st k <> None.

(** The references that the listings follow all resolve. *)
Definition sound (st : Store) : Prop :=
  integrity st /\ trips_consistent st /\ driver_accounts st /\
  Forall (review_resolves st) (reviews st).





(** ** The builtins on sample values *)

Example round_examples :
  Py.round 15 2 = 15%float /\
  Py.round 2.675 2 = 2.67%float /\
  Py.round 0.125 2 = 0.12%float /\
  Py.round 1.005 2 = 1.0%float /\
  Py.round (-0.001) 2 = (-0)%float /\
  Py.round 1e300 2 = 1e300%float /\
  Py.truediv 10 100 = 0.1%float /\
  Py.float_of_int 9 = 9%float.
Proof. vm_compute. repeat split. Qed.

Example string_examples :
  Py.str (-12) = "-12" /\ Py.str 0 = "0" /\
  Py.split "," "10,11" = ["10"; "11"] /\
  Py.split "," "" = [""] /\
  Py.split "," ",5" = [""; "5"] /\
  Py.join "," ["10"; "11"; "12"] = "10,11,12" /\
  Py.strip (Ascii.eqb ",") ",,5,7," = "5,7" /\
  Py.upper "sale10" = "SALE10" /\
  Py.strip Py.isspace "  hi " = "hi".
Proof. vm_compute. repeat split. Qed.

(** ** Rows and primary keys *)

Section Tables.
Context {A : Type} (key : A -> Z).

Lemma find_key (k : Z) (l : list A) (x : A) :
  find (fun y => key y =? k) l = Some x -> key x = k.
Proof.
  intros H. apply find_some in H. destruct H as [_ H].
  now apply Z.eqb_eq.
Qed.

Lemma find_update_where_same (k : Z) (f : A -> A) (l : list A) :
  (forall x, key (f x) = key x) ->
  find (fun y => key y =? k) (update_where key k f l)
  = option_map f (find (fun y => key y =? k) l).
Proof.
  intros Hf. induction l as [|x l IH]; simpl; [reflexivity|].
  destruct (key x =? k) eqn:E.
  - rewrite Hf, E. reflexivity.
  - rewrite E. exact IH.
Qed.


Lemma update_where_twice (k : Z) (f g : A -> A) (l : list A) :
  (forall x, key (f x) = key x) ->
  update_where key k g (update_where key k f l)
  = update_where key k (fun x => g (f x)) l.
Proof.
  intros Hf. unfold update_where. rewrite map_map.
  apply map_ext. intros x. destruct (key x =? k) eqn:E.
  - now rewrite Hf, E.
  - now rewrite E.
Qed.

Lemma update_where_absent (k : Z) (f : A -> A) (l : list A) :
  find (fun y => key y =? k) l = None -> update_where key k f l = l.
Proof.
  intros H. unfold update_where.
  rewrite <- (map_id l) at 2. apply map_ext_in. intros x Hx.
  now rewrite (find_none _ _ H x Hx).
Qed.

Lemma map_update_where {B} (h : A -> B) (k : Z) (f : A -> A) (l : list A) :
  (forall x, h (f x) = h x) -> map h (update_where key k f l) = map h l.
Proof.
  intros Hf. unfold update_where. rewrite map_map. apply map_ext.
  intros x. destruct (key x =? k); [apply Hf | reflexivity].
Qed.
End Tables.

(** ** Trip lifecycle *)

Lemma accept_trip_run (st : Store) (trip_id driver_id : Z) :
  serve (Accept trip_id driver_id) st =
  match find_driver st driver_id, find_trip st trip_id with
  | None, _ => (inr (HTTPException 404 "Driver not found."), st)
  | Some _, None => (inr (HTTPException 404 "Trip not found."), st)
  | Some _, Some t =>
      if (Trip.status t =? "searching")%string
      then (inl (message "Trip accepted successfully"),
            with_trips
              (update_where Trip.id trip_id (accepted_by driver_id) (trips st))
              st)
      else (inr (HTTPException 400 "This trip is already taken or cancelled"),
            st)
  end.
Proof.
  unfold find_driver, find_trip. run_handler.
  destruct (find _ (drivers st)) as [d|]; cbn [working persisted]; [|reflexivity].
  destruct (find _ (trips st)) as [t|] eqn:Ht; cbn [working persisted];
    [|reflexivity].
  destruct (Trip.status t =? "searching")%string; cbn [negb working persisted];
    [|reflexivity].
  rewrite (find_key Trip.id _ _ _ Ht). store_simpl.
  rewrite update_where_twice by reflexivity. reflexivity.
Qed.



Lemma terminal_dec (status : string) :
  existsb (String.eqb status) ["completed"; "cancelled"] = true
  <-> terminal status.
Proof.
  unfold terminal. cbn [existsb]. rewrite !orb_true_iff, !String.eqb_eq.
  intuition discriminate.
Qed.

Lemma cancel_trip_run (st : Store) (trip_id : Z) :
  serve (Cancel trip_id) st =
  match find_trip st trip_id with
  | None => (inr (HTTPException 404 "Request not found"), st)
  | Some t =>
      if existsb (String.eqb (Trip.status t)) ["completed"; "cancelled"]
      then (inr (HTTPException 400
                   ("Cannot cancel a trip with status: " ++ Trip.status t)), st)
      else (inl (message "Trip cancelled successfully"),
            with_trips
              (update_where Trip.id trip_id (Trip.set_status "cancelled")
                 (trips st)) st)
  end.
Proof.
  unfold find_trip. run_handler.
  destruct (find _ (trips st)) as [t|] eqn:Ht; cbn [working persisted];
    [|reflexivity].
  destruct (existsb _ _); cbn [working persisted]; [reflexivity|].
  now rewrite (find_key Trip.id _ _ _ Ht).
Qed.



Lemma complete_run (st : Store) (trip_id : Z) :
  serve (Complete trip_id) st =
  match find_trip st trip_id with
  | None => (inr (HTTPException 404 "Trip not found"), st)
  | Some t =>
      if (Trip.status t =? "completed")%string
      then (inr (HTTPException 400 "Trip has already been completed"), st)
      else
        match trip_driver st t with
        | Some d =>
            (inl (message "Trip completed and payment processed successfully"),
             with_drivers
               (update_where Driver.id (Driver.id d) (credited (amount_to_pay t))
                  (drivers st))
               (with_trips
                  (update_where Trip.id trip_id completed_and_paid (trips st))
                  st))
        | None => (inr (HTTPException 400 "No driver assigned to this trip"), st)
        end
  end.
Proof.
  unfold trip_driver, find_driver, find_trip. run_handler.
  destruct (find _ (trips st)) as [t|] eqn:Ht; cbn [working persisted];
    [|reflexivity].
  destruct (Trip.status t =? "completed")%string; cbn [working persisted];
    [reflexivity|].
  rewrite (find_key Trip.id _ _ _ Ht).
  destruct (Trip.driver_id t) as [k|]; store_simpl; [|reflexivity].
  destruct (find _ (drivers st)) as [d|]; store_simpl; [|reflexivity].
  rewrite update_where_twice by reflexivity. reflexivity.
Qed.



(** What the guards do give: [Accept] and [Cancel] leave a [completed] or
    [cancelled] trip alone, and [Complete] leaves a [completed] one alone. *)
Lemma terminal_guarded (st : Store) (trip_id driver_id : Z) (t : Trip.t) :
  find_trip st trip_id = Some t ->
  terminal (Trip.status t) ->
  snd (serve (Accept trip_id driver_id) st) = st /\
  snd (serve (Cancel trip_id) st) = st /\
  (Trip.status t = "completed" -> snd (serve (Complete trip_id) st) = st).
Proof.
  intros Ht Hterm. rewrite accept_trip_run, cancel_trip_run, complete_run, Ht.
  assert (Hs : (Trip.status t =? "searching")%string = false)
    by (destruct Hterm as [-> | ->]; reflexivity).
  apply terminal_dec in Hterm. rewrite Hs, Hterm.
  split; [now destruct (find_driver st driver_id)|].
  split; [reflexivity|]. intros ->. reflexivity.
Qed.

(** C1 (the code departs from it). A [cancelled] trip that had been accepted
    still has its driver, and [Complete] only refuses [completed] trips: it
    moves the cancelled trip to [completed], marks it paid and credits the
    driver.  Shown on a stored cancelled trip and on the path
    accept, cancel, complete of a searching one. *)
Theorem complete_moves_cancelled_trip :
  status_of sample_store 4 = Some "cancelled" /\
  fst (serve (Complete 4) sample_store)
  = inl (message "Trip completed and payment processed successfully") /\
  status_of (snd (serve (Complete 4) sample_store)) 4 = Some "completed" /\
  option_map Driver.total_earnings
    (find_driver (snd (serve (Complete 4) sample_store)) 1) = Some 25.0%float /\
  status_of sample_store 1 = Some "searching" /\
  status_of (serve_all [Accept 1 1] sample_store) 1 = Some "accepted" /\
  status_of (serve_all [Accept 1 1; Cancel 1] sample_store) 1
  = Some "cancelled" /\
  status_of (serve_all [Accept 1 1; Cancel 1; Complete 1] sample_store) 1
  = Some "completed".
Proof. vm_compute. repeat split. Qed.

(** ** Errors come before commits *)

Lemma mapM_read_only {A B} (f : A -> M B) (l : list A) :
  (forall x, read_only (f x)) -> read_only (mapM f l).
Proof.
  intros Hf. induction l as [|x l IH]; intros s; [reflexivity|].
  cbn [mapM]. unfold bind.
  specialize (Hf x s). destruct (f x s) as [[y|e] s1]; cbn [snd] in Hf; subst s1;
    [|reflexivity].
  specialize (IH s). destruct (mapM f l s) as [[ys|e] s2]; cbn [snd] in IH;
    subst s2; reflexivity.
Qed.

(** A handler that raises has not committed: every [raise] of every handler
    comes before its first [commit]. *)
Lemma raise_before_commit (r : request) (s : Session) (e : exn) (s' : Session) :
  handler r s = (inr e, s') -> persisted s' = persisted s.
Proof.
  destruct r; run_handler; intros H.
  all: try (split_lookups H; try discriminate; now inversion H).
  (* get_my_messages: the loop over the messages only reads *)
  split_lookups H; try discriminate; try (now inversion H).
  match type of H with
  | context [mapM ?f ?l ?s0] =>
      assert (Hro : snd (mapM f l s0) = s0)
        by (apply mapM_read_only; intros msg s1; cbv beta;
            match goal with
            | |- context [find ?p ?rs] => now destruct (find p rs)
            end);
      destruct (mapM f l s0) as [[ys|e'] s1]
  end; cbn [snd] in Hro; subst; [discriminate | now inversion H].
Qed.

(** C6. A request that fails, with whatever error, leaves the persisted
    store unchanged.  In particular [Complete] failing with "No driver
    assigned to this trip" leaves the trip's status and payment status as
    they were, and [LeaveReview] rejecting a trip that is not [completed]
    leaves every driver's rating as it was. *)
Theorem failed_request_leaves_store :
  (forall (r : request) (st st' : Store) (e : exn),
     serve r st = (inr e, st') -> st' = st) /\
  (forall (st st' : Store) (trip_id : Z),
     serve (Complete trip_id) st
     = (inr (HTTPException 400 "No driver assigned to this trip"), st') ->
     option_map Trip.status (find_trip st' trip_id)
     = option_map Trip.status (find_trip st trip_id) /\
     option_map Trip.payment_status (find_trip st' trip_id)
     = option_map Trip.payment_status (find_trip st trip_id)) /\
  (forall (st st' : Store) (trip_id rating : Z) (comment : string) (k : Z),
     serve (LeaveReview trip_id rating comment) st
     = (inr (HTTPException 400 "You can only rate completed trips"), st') ->
     option_map Driver.rating (find_driver st' k)
     = option_map Driver.rating (find_driver st k)).
Proof.
  assert (Hall : forall r st st' e, serve r st = (inr e, st') -> st' = st).
  { intros r st st' e H. unfold serve, get_db in H.
    destruct (handler r (mkSession st st)) as [[v|e'] s] eqn:E; [discriminate|].
    injection H as -> <-.
    now rewrite (raise_before_commit _ _ _ _ E). }
  split; [exact Hall|]. split.
  - intros st st' trip_id H. now rewrite (Hall _ _ _ _ H).
  - intros st st' trip_id rating comment k H. now rewrite (Hall _ _ _ _ H).
Qed.

(** The two failures named by C6, on the sample store. *)
Lemma failed_request_leaves_store_witness :
  serve (Complete 5) sample_store
  = (inr (HTTPException 400 "No driver assigned to this trip"), sample_store) /\
  serve (LeaveReview 1 5 "Too early") sample_store
  = (inr (HTTPException 400 "You can only rate completed trips"), sample_store).
Proof.
  destruct failed_request_leaves_store as (Hall & _ & _).
  split.
  - destruct (serve (Complete 5) sample_store) as [r st'] eqn:E.
    assert (Hr : r = inr (HTTPException 400 "No driver assigned to this trip"))
      by (apply (f_equal fst) in E; vm_compute in E; now subst r).
    subst r. now rewrite (Hall _ _ _ _ E).
  - destruct (serve (LeaveReview 1 5 "Too early") sample_store) as [r st'] eqn:E.
    assert (Hr : r = inr (HTTPException 400 "You can only rate completed trips"))
      by (apply (f_equal fst) in E; vm_compute in E; now subst r).
    subst r. now rewrite (Hall _ _ _ _ E).
Defined.

(** Inside the session [Complete] has by then marked the trip; it is the
    missing commit that keeps the store as it was. *)
Example complete_no_driver_pending :
  let s := snd (handler (Complete 5) (mkSession sample_store sample_store)) in
  status_of (working s) 5 = Some "completed" /\
  status_of (persisted s) 5 = Some "accepted".
Proof. vm_compute. split; reflexivity. Qed.

(** ** Accounts *)

Lemma register_user_run (st : Store) (user_in : Schemas.UserCreate) :
  serve (RegisterUser user_in) st =
  match find (fun u => (User.email u =? Schemas.email user_in)%string
                       || (User.phone u =? Schemas.phone user_in)%string)
             (users st) with
  | Some _ =>
      (inr (HTTPException 400 "Email or phone number is already registered!"),
       st)
  | None =>
      let k := next_id (map User.id (users st)) in
      (inl (JDict [("id", JInt k);
                   ("full_name", JStr (Schemas.full_name user_in));
                   ("role", JStr (Schemas.role user_in))]),
       with_users (users st ++ [registered k user_in]) st)
  end.
Proof.
  run_handler. destruct (find _ (users st)); reflexivity.
Qed.

Lemma taken_find (st : Store) (user_in : Schemas.UserCreate) :
  taken st user_in <->
  find (fun u => (User.email u =? Schemas.email user_in)%string
                 || (User.phone u =? Schemas.phone user_in)%string)
       (users st) <> None.
Proof.
  split.
  - intros (u & Hin & H) Hnone.
    pose proof (find_none _ _ Hnone u Hin) as Hu. cbv beta in Hu.
    apply orb_false_iff in Hu. destruct Hu as [He Hp].
    apply String.eqb_neq in He, Hp. tauto.
  - destruct (find _ _) as [u|] eqn:E; [intros _ | congruence].
    apply find_some in E. destruct E as [Hin H].
    apply orb_true_iff in H. rewrite !String.eqb_eq in H. now exists u.
Qed.

Lemma NoDup_snoc {A} (l : list A) (x : A) :
  NoDup l -> ~ In x l -> NoDup (l ++ [x]).
Proof.
  intros Hl Hx. induction Hl as [|y l Hy Hl IH]; cbn.
  - constructor; [tauto | constructor].
  - constructor.
    + rewrite in_app_iff. cbn. intros [H | [H | []]]; [tauto|].
      subst. apply Hx. now left.
    + apply IH. intros H. apply Hx. now right.
Qed.

(** C8. [Register] rejects with a 400 error, creating no user, every
    registration whose email or phone is that of an existing user, and
    accepts every other one, appending the new user; so the emails stay
    pairwise distinct, and so do the phones. *)
Theorem register_user_spec (st : Store) (user_in : Schemas.UserCreate) :
  let out := serve (RegisterUser user_in) st in
  (taken st user_in ->
   out = (inr (HTTPException 400 "Email or phone number is already registered!"),
          st)) /\
  (~ taken st user_in ->
   succeeds out /\
   snd out
   = with_users
       (users st ++ [registered (next_id (map User.id (users st))) user_in]) st) /\
  (NoDup (map User.email (users st)) ->
   NoDup (map User.email (users (snd out)))) /\
  (NoDup (map User.phone (users st)) ->
   NoDup (map User.phone (users (snd out)))).
Proof.
  intros out. subst out. rewrite register_user_run.
  pose proof (taken_find st user_in) as Htaken.
  destruct (find _ (users st)) as [u|] eqn:E.
  - split; [reflexivity|]. split; [|split; intros H; exact H].
    intros H. exfalso. apply H, Htaken. discriminate.
  - assert (Hfree : ~ taken st user_in) by (rewrite Htaken; tauto).
    split; [tauto|].
    split; [intros _; split; [eexists _, _; reflexivity | reflexivity]|].
    cbn [snd]. store_simpl. rewrite !map_app. cbn [map registered].
    split; intros Hnd; apply NoDup_snoc; try exact Hnd;
      intros Hin; apply in_map_iff in Hin; destruct Hin as (v & Hv & Hin);
      apply Hfree; exists v; tauto.
Qed.

(** A registration with a taken email, and a fresh one. *)
Lemma register_user_spec_witness :
  let dup := Schemas.mkUserCreate "alice@test.com" "Eve" "0777" "client.html" "pw" in
  let new := Schemas.mkUserCreate "new@test.com" "New User" "0888000001"
               "client.html" "securepassword" in
  serve (RegisterUser dup) sample_store
  = (inr (HTTPException 400 "Email or phone number is already registered!"),
     sample_store) /\
  succeeds (serve (RegisterUser new) sample_store) /\
  NoDup (map User.email (users (snd (serve (RegisterUser new) sample_store)))).
Proof.
  intros dup new.
  destruct (register_user_spec sample_store dup) as (Hdup & _).
  destruct (register_user_spec sample_store new) as (_ & Hnew & Hemail & _).
  split; [|split].
  - apply Hdup. exists alice. split; [now left | now left].
  - apply Hnew. intros (u & Hin & H).
    cbn in Hin. destruct Hin as [<- | [<- | [<- | []]]];
      destruct H as [H | H]; vm_compute in H; discriminate.
  - apply Hemail. cbn. repeat constructor; cbn; intuition discriminate.
Defined.

Lemma login_run (st : Store) (email password : string) :
  serve (Login email password) st =
  (match find (fun u => (User.email u =? email)%string) (users st) with
   | None => inr (HTTPException 401 "Incorrect email or password.")
   | Some user =>
       if negb (User.password user =? password)%string
       then inr (HTTPException 401 "Incorrect email or password.")
       else if negb (User.is_active user)
       then inr (HTTPException 403
                   "Account is blocked. Please contact an administrator.")
       else inl (JDict [("id", JInt (User.id user));
                        ("full_name", JStr (User.full_name user));
                        ("role", JStr (User.role user))])
   end, st).
Proof.
  run_handler. destruct (find _ (users st)) as [u|]; [|reflexivity].
  destruct (negb _); [reflexivity|]. destruct (negb _); reflexivity.
Qed.

(** With emails pairwise distinct (the unique index on [users.email]), the
    lookup by email finds the user who has it. *)
Lemma find_by_email (l : list User.t) (u : User.t) :
  NoDup (map User.email l) -> In u l ->
  find (fun x => (User.email x =? User.email u)%string) l = Some u.
Proof.
  induction l as [|x l IH]; intros Hnd Hin; [destruct Hin|].
  cbn [map] in Hnd. inversion Hnd as [|? ? Hx Hl]; subst.
  cbn [find]. destruct Hin as [-> | Hin].
  - now rewrite String.eqb_refl.
  - destruct (String.eqb_spec (User.email x) (User.email u)) as [E|E].
    + exfalso. apply Hx. rewrite E. now apply in_map.
    + now apply IH.
Qed.

(** C10. A blocked account never logs in: for a stored user with
    [is_active = False], [Login] with that user's email fails whatever the
    password, with 403 when the password is the stored one (and 401 when it
    is not), and the store is unchanged.  Conversely a login that succeeds
    is that of an active user with the given email and password, and leaves
    the store unchanged. *)
Theorem login_blocked_account :
  (forall (st : Store) (u : User.t) (password : string),
     NoDup (map User.email (users st)) ->
     In u (users st) ->
     User.is_active u = false ->
     let out := serve (Login (User.email u) password) st in
     fails out /\ snd out = st /\
     (password = User.password u ->
      fst out = inr (HTTPException 403
                       "Account is blocked. Please contact an administrator.")) /\
     (password <> User.password u ->
      fst out = inr (HTTPException 401 "Incorrect email or password."))) /\
  (forall (st st' : Store) (email password : string) (v : json),
     serve (Login email password) st = (inl v, st') ->
     st' = st /\
     exists u, In u (users st) /\ User.email u = email /\
               User.password u = password /\ User.is_active u = true).
Proof.
  split.
  - intros st u password Hnd Hin Hblocked out. subst out.
    rewrite login_run, (find_by_email _ _ Hnd Hin), Hblocked. cbn [negb fst snd].
    destruct (String.eqb_spec (User.password u) password) as [E|E]; cbn [negb].
    + split; [eexists _, _; reflexivity|]. split; [reflexivity|].
      split; [reflexivity | congruence].
    + split; [eexists _, _; reflexivity|]. split; [reflexivity|].
      split; [congruence | reflexivity].
  - intros st st' email password v H. rewrite login_run in H.
    destruct (find _ (users st)) as [u|] eqn:E; [|discriminate].
    apply find_some in E. destruct E as [Hin He]. apply String.eqb_eq in He.
    destruct (String.eqb_spec (User.password u) password) as [Hp|Hp];
      cbn [negb] in H; [|discriminate].
    destruct (User.is_active u) eqn:Ha; cbn [negb] in H; [|discriminate].
    injection H as _ <-. split; [reflexivity|]. now exists u.
Qed.

(** The blocked user of the sample store, and an active one. *)
Lemma login_blocked_account_witness :
  fst (serve (Login "mallory@test.com" "letmein") sample_store)
  = inr (HTTPException 403
           "Account is blocked. Please contact an administrator.") /\
  snd (serve (Login "mallory@test.com" "letmein") sample_store) = sample_store /\
  exists u, In u (users sample_store) /\ User.email u = "alice@test.com" /\
            User.password u = "secret" /\ User.is_active u = true.
Proof.
  destruct login_blocked_account as (Hblocked & Hok).
  assert (Hnd : NoDup (map User.email (users sample_store)))
    by (cbn; repeat constructor; cbn; intuition discriminate).
  assert (Hin : In mallory (users sample_store)) by (cbn; tauto).
  destruct (Hblocked sample_store mallory "letmein" Hnd Hin eq_refl)
    as (_ & Hst & H403 & _).
  split; [exact (H403 eq_refl)|]. split; [exact Hst|].
  destruct (Hok sample_store sample_store "alice@test.com" "secret"
              (JDict [("id", JInt 1); ("full_name", JStr "Alice Smith");
                      ("role", JStr "client.html")]) eq_refl) as (_ & H).
  exact H.
Defined.

(** ** Pricing *)







(** ** Reviews and ratings *)


Lemma recompute_rating_session (driver_id : option Z) (p w : Store) :
  ReviewsApi.recompute_rating driver_id (mkSession p w) =
  (inl tt,
   match find (fun d => option_Z_eqb (Some (Driver.id d)) driver_id) (drivers w),
         ReviewsApi.avg (ratings_of w driver_id) with
   | Some d, Some a =>
       mkSession (rating_recomputed w driver_id) (rating_recomputed w driver_id)
   | _, _ => mkSession p w
   end).
Proof.
  unfold rating_recomputed, ratings_of. run_handler.
  destruct (find _ (drivers w)) as [d|]; [|reflexivity].
  destruct (ReviewsApi.avg _); reflexivity.
Qed.

Lemma leave_review_run (st : Store) (trip_id rating : Z) (comment : string) :
  serve (LeaveReview trip_id rating comment) st =
  match find_trip st trip_id with
  | None => (inr (HTTPException 404 "Trip not found"), st)
  | Some t =>
      if negb (Trip.status t =? "completed")%string
      then (inr (HTTPException 400 "You can only rate completed trips"), st)
      else
        match find_user st (Trip.client_id t) with
        | None =>
            (inr (AttributeError
                    "'NoneType' object has no attribute 'full_name'"), st)
        | Some c =>
            let k := next_id (map Review.id (reviews st)) in
            (inl (review_response k (User.full_name c)),
             rating_recomputed
               (with_reviews
                  (reviews st
                   ++ [Review.mk k trip_id (Trip.driver_id t) (User.full_name c)
                         rating comment]) st)
               (Trip.driver_id t))
        end
  end.
Proof.
  unfold find_trip, find_user, serve, get_db, handler, ReviewsApi.leave_review.
  unfold bind at 1. unfold query_first at 1. cbn [rows Trips working].
  destruct (find _ (trips st)) as [t|]; [|reflexivity].
  unfold bind at 1. cbn [if_not ret].
  destruct (negb _); [reflexivity|].
  unfold bind at 1. cbn [relationship query_first rows pk Users working].
  destruct (find _ (users st)) as [c|]; [|reflexivity].
  unfold bind at 1. cbn [getattr ret].
  unfold bind at 1. cbn [add rows with_rows pk Reviews working persisted].
  unfold bind at 1. cbn [commit working persisted].
  unfold bind at 1. rewrite recompute_rating_session.
  unfold rating_recomputed.
  destruct (find _ _) as [d|]; [|reflexivity].
  destruct (ReviewsApi.avg _); reflexivity.
Qed.






(** ** Favorites *)

(** *** Comma-separated lists *)

Lemma string_app_assoc (a b c : string) :
  ((a ++ b) ++ c = a ++ (b ++ c))%string.
Proof. induction a as [|x a IH]; cbn; [reflexivity | now rewrite IH]. Qed.

Lemma string_app_nil_r (a : string) : (a ++ "" = a)%string.
Proof. induction a as [|x a IH]; cbn; [reflexivity | now rewrite IH]. Qed.

Lemma is_comma_false (c : ascii) : c <> comma -> is_comma c = false.
Proof. intros H. apply Ascii.eqb_neq. congruence. Qed.

Lemma eqb_comma_false (c : ascii) : c <> comma -> Ascii.eqb c comma = false.
Proof. intros H. now apply Ascii.eqb_neq. Qed.


Lemma split_no_comma (s : string) : Forall no_comma (Py.split comma s).
Proof.
  induction s as [|c s IH]; cbn [Py.split].
  - repeat constructor.
  - destruct (Ascii.eqb_spec c comma) as [E|E].
    + constructor; [exact I | exact IH].
    + destruct (Py.split comma s) as [|w ws].
      * repeat constructor. exact E.
      * inversion IH; subst. constructor; [split; assumption | assumption].
Qed.

Lemma split_token (x : string) : no_comma x -> Py.split comma x = [x].
Proof.
  induction x as [|c x IH]; intros H; [reflexivity|].
  destruct H as [Hc Hx]. cbn [Py.split].
  now rewrite (eqb_comma_false c Hc), (IH Hx).
Qed.

Lemma split_app_comma (x s : string) :
  no_comma x ->
  Py.split comma (x ++ String comma s) = x :: Py.split comma s.
Proof.
  induction x as [|c x IH]; intros H.
  - cbn [append Py.split]. now rewrite Ascii.eqb_refl.
  - destruct H as [Hc Hx]. cbn [append Py.split].
    now rewrite (eqb_comma_false c Hc), (IH Hx).
Qed.

(** Splitting what was joined gives the entries back. *)
Lemma split_join (l : list string) :
  l <> [] -> Forall no_comma l ->
  Py.split comma (Py.join "," l) = l.
Proof.
  induction l as [|x l IH]; intros Hne Hl; [congruence|].
  inversion Hl as [|? ? Hx Hl']; subst.
  destruct l as [|y l].
  - cbn. now apply split_token.
  - change (Py.join "," (x :: y :: l))
      with (x ++ String comma (Py.join "," (y :: l)))%string.
    rewrite split_app_comma by assumption.
    now rewrite IH.
Qed.

Lemma join_snoc (l : list string) (x : string) :
  l <> [] ->
  Py.join "," (l ++ [x]) = (Py.join "," l ++ String comma x)%string.
Proof.
  induction l as [|y l IH]; intros Hne; [congruence|].
  destruct l as [|z l].
  - reflexivity.
  - change (Py.join "," ((y :: z :: l) ++ [x]))
      with (y ++ String comma (Py.join "," ((z :: l) ++ [x])))%string.
    rewrite IH by discriminate.
    change (Py.join "," (y :: z :: l))
      with (y ++ String comma (Py.join "," (z :: l)))%string.
    rewrite !string_app_assoc. reflexivity.
Qed.

Lemma rstrip_clean (p : ascii -> bool) (s : string) :
  ends_clean p s -> Py.rstrip p s = s.
Proof.
  induction s as [|c s IH]; intros H; [reflexivity|].
  destruct s as [|c' s].
  - cbn [ends_clean Py.rstrip] in *. now rewrite H.
  - cbn [ends_clean] in H. specialize (IH H).
    cbn [Py.rstrip] in *. now rewrite IH.
Qed.

Lemma ends_clean_app (p : ascii -> bool) (a b : string) :
  b <> EmptyString -> ends_clean p b -> ends_clean p (a ++ b).
Proof.
  intros Hne Hb. induction a as [|c a IH]; [exact Hb|].
  cbn [append]. destruct (a ++ b)%string eqn:E.
  - destruct a; [cbn in E; congruence | discriminate].
  - exact IH.
Qed.

Lemma token_ends_clean (x : string) : no_comma x -> ends_clean is_comma x.
Proof.
  induction x as [|c x IH]; intros H; [exact I|].
  destruct H as [Hc Hx]. destruct x as [|c' x].
  - cbn [ends_clean]. now apply is_comma_false.
  - cbn [ends_clean]. now apply IH.
Qed.

Lemma lstrip_token_head (x s : string) :
  token x -> Py.lstrip is_comma (x ++ s) = (x ++ s)%string.
Proof.
  intros [Hne Hx]. destruct x as [|c x]; [congruence|].
  destruct Hx as [Hc _]. cbn [append Py.lstrip].
  now rewrite (is_comma_false c Hc).
Qed.

(** Joined entries neither start nor end with a comma: [strip(",")] leaves
    them as they are. *)
Lemma strip_join (l : list string) (x : string) :
  Forall token l -> token x ->
  Py.strip is_comma (Py.join "," (l ++ [x])) = Py.join "," (l ++ [x]).
Proof.
  intros Hl Hx. unfold Py.strip.
  assert (Hclean : ends_clean is_comma (Py.join "," (l ++ [x]))).
  { destruct l as [|y l].
    - cbn. apply token_ends_clean, Hx.
    - rewrite join_snoc by discriminate.
      apply ends_clean_app; [discriminate|].
      destruct Hx as [Hne Hx]. destruct x as [|c x]; [congruence|].
      cbn [ends_clean]. now apply (token_ends_clean (String c x)). }
  destruct l as [|y l].
  - cbn [app Py.join] in *.
    pose proof (lstrip_token_head x "" Hx) as Hhead.
    rewrite string_app_nil_r in Hhead. rewrite Hhead.
    now apply rstrip_clean.
  - inversion Hl; subst. rewrite join_snoc in * by discriminate.
    destruct l as [|z l].
    + cbn [Py.join] in *. rewrite lstrip_token_head by assumption.
      now apply rstrip_clean.
    + change (Py.join "," (y :: z :: l))
        with (y ++ String comma (Py.join "," (z :: l)))%string in *.
      rewrite string_app_assoc in *.
      rewrite lstrip_token_head by assumption.
      now apply rstrip_clean.
Qed.

(** *** [str] of an integer is an entry *)

Lemma string_of_uint_no_comma (u : Decimal.uint) :
  no_comma (NilEmpty.string_of_uint u).
Proof.
  induction u; cbn [NilEmpty.string_of_uint no_comma];
    try exact I; (split; [discriminate | assumption]).
Qed.

Lemma nilzero_uint_token (u : Decimal.uint) :
  token (NilZero.string_of_uint u).
Proof.
  split.
  - destruct u; discriminate.
  - destruct u; try apply string_of_uint_no_comma.
    cbn. split; [discriminate | exact I].
Qed.

Lemma str_token (n : Z) : token (Py.str n).
Proof.
  unfold Py.str, NilZero.string_of_int.
  destruct (Z.to_int n) as [u|u].
  - apply nilzero_uint_token.
  - split; [discriminate|].
    split; [discriminate | apply nilzero_uint_token].
Qed.

(** *** The handler *)

Lemma add_favorite_run (st : Store) (user_id driver_id : Z) :
  serve (AddFavorite user_id driver_id) st =
  match find_user st user_id with
  | None => (inr (HTTPException 404 "User not found"), st)
  | Some u =>
      if existsb (String.eqb (Py.str driver_id)) (UsersApi.current_favorites u)
      then (inl (message "Driver is already in your favorites list"), st)
      else (inl (message "Driver added to favorites"),
            with_users
              (update_where User.id user_id
                 (User.set_favorites (Some (favorites_with u driver_id)))
                 (users st)) st)
  end.
Proof.
  unfold find_user. run_handler.
  destruct (find _ (users st)) as [u|] eqn:Hu; cbn [working persisted];
    [|reflexivity].
  destruct (existsb _ _); cbn [negb working persisted]; [reflexivity|].
  now rewrite (find_key User.id _ _ _ Hu).
Qed.

Lemma existsb_str_In (x : string) (l : list string) :
  existsb (String.eqb x) l = true <-> In x l.
Proof.
  rewrite existsb_exists. split.
  - intros (y & Hin & E). apply String.eqb_eq in E. now subst.
  - intros Hin. exists x. split; [exact Hin | apply String.eqb_refl].
Qed.

(** Under the representation invariant the written string is the joined
    list with the new entry at its end, and reads back as that list. *)
Lemma favorites_with_list (u x : User.t) (driver_id : Z) :
  Forall token (UsersApi.current_favorites u) ->
  favorites_with u driver_id
  = Py.join "," (UsersApi.current_favorites u ++ [Py.str driver_id]) /\
  UsersApi.current_favorites
    (User.set_favorites (Some (favorites_with u driver_id)) x)
  = (UsersApi.current_favorites u ++ [Py.str driver_id])%list.
Proof.
  intros Hcur. set (cur := UsersApi.current_favorites u) in *.
  assert (Hstrip : favorites_with u driver_id
                   = Py.join "," (cur ++ [Py.str driver_id])).
  { unfold favorites_with. fold cur.
    change (Ascii.eqb ",") with is_comma.
    apply strip_join; [exact Hcur | apply str_token]. }
  split; [exact Hstrip|].
  unfold UsersApi.current_favorites at 1. cbn [User.favorites User.set_favorites].
  rewrite Hstrip.
  assert (Hsplit : Py.split comma (Py.join "," (cur ++ [Py.str driver_id]))
                   = (cur ++ [Py.str driver_id])%list).
  { apply split_join; [now destruct cur|].
    apply Forall_app. split.
    - eapply Forall_impl; [|exact Hcur]. now intros a [_ Ha].
    - constructor; [apply str_token | constructor]. }
  change (Py.split "," ?s) with (Py.split comma s).
  destruct (Py.join "," (cur ++ [Py.str driver_id])) eqn:E;
    cbn [Py.truthy]; [|exact Hsplit].
  exfalso. cbn in Hsplit. symmetry in Hsplit.
  apply app_eq_unit in Hsplit.
  destruct Hsplit as [[_ H] | [_ H]]; [|discriminate].
  injection H as H. now apply (proj1 (str_token driver_id)).
Qed.

(** C9. Adding a favorite is idempotent.  When [str(driver_id)] is an entry
    of the user's comma-separated favorites, the store is left as it is and
    the "already in your favorites" message is returned.  Otherwise the
    favorites field is rewritten with the id appended; on a favorites field
    whose entries are non-empty and pairwise distinct (as the field is when
    only this operation writes it) the new list is the old one followed by
    the id, it stays without repetition, and adding the same id again changes
    nothing. *)
Theorem add_favorite_driver_spec (st : Store) (user_id driver_id : Z)
    (u : User.t) :
  find_user st user_id = Some u ->
  let out := serve (AddFavorite user_id driver_id) st in
  let cur := UsersApi.current_favorites u in
  let sid := Py.str driver_id in
  (In sid cur ->
   out = (inl (message "Driver is already in your favorites list"), st)) /\
  (~ In sid cur ->
   fst out = inl (message "Driver added to favorites") /\
   find_user (snd out) user_id
   = Some (User.set_favorites (Some (favorites_with u driver_id)) u) /\
   (Forall token cur ->
    favorites_with u driver_id = Py.join "," (cur ++ [sid]) /\
    UsersApi.current_favorites
      (User.set_favorites (Some (favorites_with u driver_id)) u)
    = (cur ++ [sid])%list)) /\
  (Forall token cur -> NoDup cur ->
   exists u', find_user (snd out) user_id = Some u' /\
              Forall token (UsersApi.current_favorites u') /\
              NoDup (UsersApi.current_favorites u') /\
              In sid (UsersApi.current_favorites u') /\
              serve (AddFavorite user_id driver_id) (snd out)
              = (inl (message "Driver is already in your favorites list"),
                 snd out)).
Proof.
  intros Hu out cur sid.
  assert (Hadded : ~ In sid cur ->
            out = (inl (message "Driver added to favorites"),
                   with_users
                     (update_where User.id user_id
                        (User.set_favorites (Some (favorites_with u driver_id)))
                        (users st)) st) /\
            find_user (snd out) user_id
            = Some (User.set_favorites (Some (favorites_with u driver_id)) u)).
  { intros Hnin. subst out. rewrite add_favorite_run, Hu.
    destruct (existsb _ _) eqn:E; [apply existsb_str_In in E; contradiction|].
    split; [reflexivity|]. cbn [snd]. unfold find_user in *. store_simpl.
    rewrite find_update_where_same by reflexivity. now rewrite Hu. }
  assert (Hpresent : forall st0 u0,
            find_user st0 user_id = Some u0 ->
            In sid (UsersApi.current_favorites u0) ->
            serve (AddFavorite user_id driver_id) st0
            = (inl (message "Driver is already in your favorites list"), st0)).
  { intros st0 u0 Hu0 Hin. rewrite add_favorite_run, Hu0.
    apply existsb_str_In in Hin. fold sid. now rewrite Hin. }
  split; [intros Hin; now apply (Hpresent st u)|].
  split.
  - intros Hnin. destruct (Hadded Hnin) as [Hout Hfind].
    split; [now rewrite Hout|]. split; [exact Hfind|].
    intros Hcur. now apply favorites_with_list.
  - intros Hcur Hnd.
    destruct (existsb (String.eqb sid) cur) eqn:E.
    + apply existsb_str_In in E.
      assert (Hout : out = (inl (message "Driver is already in your favorites list"), st))
        by now apply (Hpresent st u).
      rewrite Hout. cbn [snd]. exists u.
      repeat split; assumption.
    + assert (Hnin : ~ In sid cur)
        by (intros Hin; apply existsb_str_In in Hin; congruence).
      destruct (Hadded Hnin) as [Hout Hfind].
      destruct (favorites_with_list u u driver_id Hcur) as [_ Hlist].
      eexists. split; [exact Hfind|]. rewrite Hlist. fold cur sid.
      split; [apply Forall_app; split;
              [exact Hcur | constructor; [apply str_token | constructor]]|].
      split; [now apply NoDup_snoc|].
      split; [apply in_or_app; right; now left|].
      apply (Hpresent _ _ Hfind). rewrite Hlist.
      apply in_or_app; right; now left.
Qed.

(** Favorites "10,11": adding 10 again, adding 12, adding 12 twice; and a
    first favorite. *)
Lemma add_favorite_driver_spec_witness :
  serve (AddFavorite 2 10) sample_store
  = (inl (message "Driver is already in your favorites list"), sample_store) /\
  option_map User.favorites (find_user (snd (serve (AddFavorite 2 12) sample_store)) 2)
  = Some (Some "10,11,12") /\
  option_map User.favorites (find_user (snd (serve (AddFavorite 1 12) sample_store)) 1)
  = Some (Some "12") /\
  serve (AddFavorite 2 12) (snd (serve (AddFavorite 2 12) sample_store))
  = (inl (message "Driver is already in your favorites list"),
     snd (serve (AddFavorite 2 12) sample_store)).
Proof.
  assert (Hcur : Forall token (UsersApi.current_favorites ivan)).
  { repeat constructor; try discriminate. }
  assert (Hnd : NoDup (UsersApi.current_favorites ivan)).
  { repeat constructor; cbn; intuition discriminate. }
  assert (Hnin : ~ In (Py.str 12) (UsersApi.current_favorites ivan)).
  { cbn. intuition discriminate. }
  destruct (add_favorite_driver_spec sample_store 2 10 ivan eq_refl)
    as (Halready & _).
  destruct (add_favorite_driver_spec sample_store 2 12 ivan eq_refl)
    as (_ & Hadd & Hinv).
  destruct (add_favorite_driver_spec sample_store 1 12 alice eq_refl)
    as (_ & Hadd1 & _).
  split; [apply Halready; cbn; tauto|].
  split.
  { destruct (Hadd Hnin) as (_ & Hfind & _). rewrite Hfind. reflexivity. }
  split.
  { destruct Hadd1 as (_ & Hfind & _); [cbn; tauto|]. rewrite Hfind. reflexivity. }
  destruct (Hinv Hcur Hnd) as (u' & _ & _ & _ & _ & Hagain). exact Hagain.
Defined.

(** ** What each request leaves alone *)

Lemma my_messages_read_only (user_id : Z) :
  read_only (handler (MyMessages user_id)).
Proof.
  intros s. run_handler.
  destruct (find _ (users (working s))); cbn [working persisted]; [|reflexivity].
  match goal with
  | |- context [mapM ?f ?l ?s0] =>
      assert (Hro : snd (mapM f l s0) = s0)
        by (apply mapM_read_only; intros msg s1; cbv beta;
            match goal with
            | |- context [find ?p ?rs] => now destruct (find p rs)
            end);
      destruct (mapM f l s0) as [[ys|e'] s1]
  end; cbn [snd] in Hro; now subst.
Qed.

Lemma my_messages_store (user_id : Z) (st : Store) :
  snd (serve (MyMessages user_id) st) = st.
Proof.
  unfold serve, get_db.
  pose proof (my_messages_read_only user_id (mkSession st st)) as H.
  destruct (handler _ _) as [res s]. cbn [snd] in *. now subst.
Qed.

Lemma frame_trips (r : request) (st : Store) :
  match r with
  | RequestTrip _ | Accept _ _ | Cancel _ | Complete _ => True
  | _ => trips (snd (serve r st)) = trips st
  end.
Proof.
  destruct r; try exact I; try (rewrite my_messages_store; reflexivity);
    run_handler; split_lookups_goal; reflexivity.
Qed.

(** ** How a request changes the tables *)

Section Evolution.
Context {A : Type} (key : A -> Z) (R : A -> A -> Prop) (N : A -> Prop).
Hypothesis R_refl : forall x, R x x.

Lemma Forall2_same (l : list A) : Forall2 R l l.
Proof. induction l; constructor; auto. Qed.

Lemma evolves_same (l : list A) : evolves key R N l l.
Proof.
  exists l, []. rewrite app_nil_r. split; [reflexivity|].
  split; [apply Forall2_same | now left].
Qed.

Lemma evolves_added (l : list A) (x : A) :
  key x = next_id (map key l) -> N x -> evolves key R N l (l ++ [x]).
Proof.
  intros Hk Hn. exists l, [x]. split; [reflexivity|].
  split; [apply Forall2_same | right; now exists x].
Qed.

Lemma evolves_changed (l l1 : list A) : Forall2 R l l1 -> evolves key R N l l1.
Proof.
  intros H. exists l1, []. rewrite app_nil_r. split; [reflexivity|].
  split; [exact H | now left].
Qed.

(** One more assignment on the rows with key [k]. *)
Lemma changed_update (k : Z) (f : A -> A) (l l1 : list A) :
  (forall a b, R a b -> R a (f b)) ->
  Forall2 R l l1 -> Forall2 R l (update_where key k f l1).
Proof.
  intros Hf H. induction H as [|a b l l1 Hab H IH]; cbn; constructor; auto.
  destruct (key b =? k); auto.
Qed.

(** With distinct keys an update changes the one row that was found. *)
Lemma changed_found (k : Z) (f : A -> A) (l : list A) (x : A) :
  NoDup (map key l) ->
  find (fun y => key y =? k) l = Some x ->
  R x (f x) -> Forall2 R l (update_where key k f l).
Proof.
  intros Hnd Hx Hr. induction l as [|a l IH]; [discriminate|].
  cbn [map] in Hnd. inversion Hnd as [|? ? Ha Hl]; subst.
  cbn [find] in Hx. cbn [update_where map].
  destruct (key a =? k) eqn:E.
  - injection Hx as ->. constructor; [exact Hr|].
    apply Z.eqb_eq in E. subst k.
    assert (Hl1 : update_where key (key x) f l = l).
    { apply update_where_absent.
      destruct (find _ l) as [y|] eqn:Ey; [|reflexivity].
      exfalso. apply Ha. rewrite <- (find_key key _ _ _ Ey).
      apply in_map. now apply (find_some _ _ Ey). }
    unfold update_where in Hl1. rewrite Hl1. apply Forall2_same.
  - constructor; [apply R_refl | now apply IH].
Qed.
End Evolution.

(** The next primary key is above every key in use. *)
Lemma next_id_above (ids : list Z) (k : Z) : In k ids -> k < next_id ids.
Proof.
  unfold next_id. induction ids as [|a ids IH]; intros Hin; [destruct Hin|].
  cbn [fold_right]. destruct Hin as [-> | Hin]; [lia|].
  specialize (IH Hin). lia.
Qed.

Lemma next_id_fresh (ids : list Z) : ~ In (next_id ids) ids.
Proof. intros H. apply next_id_above in H. lia. Qed.

Lemma next_id_positive (ids : list Z) : 0 < next_id ids.
Proof.
  unfold next_id. induction ids as [|a ids IH]; cbn [fold_right]; lia.
Qed.

Lemma user_kept_refl (u : User.t) : user_kept u u.
Proof. unfold user_kept. tauto. Qed.

Lemma driver_kept_refl (d : Driver.t) : driver_kept d d.
Proof. unfold driver_kept. tauto. Qed.

Lemma trip_kept_refl (t : Trip.t) : trip_kept t t.
Proof. unfold trip_kept. repeat split. Qed.

(** A kept-relation survives one more assignment of a field it leaves
    free. *)
Ltac kept_setter :=
  let a := fresh "a" in
  let b := fresh "b" in
  let H := fresh "H" in
  intros a b H; destruct b;
  unfold user_kept, driver_kept, trip_kept in *;
  cbn [User.id User.full_name User.email User.role User.is_active
       User.is_verified User.set_home_address User.set_preferences
       User.set_password User.set_phone User.set_favorites
       User.set_is_verified User.set_is_active
       Driver.id Driver.user_id Driver.car_model Driver.car_category
       Driver.license_plate Driver.description Driver.set_price_per_km
       Driver.set_schedule Driver.set_current_location Driver.set_rating
       Driver.set_is_online Driver.set_total_earnings
       Trip.id Trip.client_id Trip.pickup_location Trip.destination
       Trip.is_shared Trip.seats_available Trip.is_urgent Trip.final_price
       Trip.car_category Trip.set_driver_id Trip.set_status
       Trip.set_payment_status] in *;
  intuition congruence.

Lemma find_none_fresh (st : Store) (email phone : string) :
  find (fun u => (User.email u =? email)%string || (User.phone u =? phone)%string)
       (users st) = None ->
  ~ In email (map User.email (users st)) /\
  ~ In phone (map User.phone (users st)).
Proof.
  intros Hnone.
  split; intros Hin; apply in_map_iff in Hin; destruct Hin as (u & Hu & Hin);
    pose proof (find_none _ _ Hnone u Hin) as H; cbv beta in H;
    apply orb_false_iff in H; destruct H as [He Hp];
    apply String.eqb_neq in He, Hp; congruence.
Qed.

Ltac evolves_leaf refl :=
  store_simpl;
  first [ apply evolves_same; exact refl
        | apply evolves_added;
          [exact refl | reflexivity
          | repeat split;
            match goal with
            | H : find _ _ = None |- ~ In _ (map User.email _) =>
                exact (proj1 (find_none_fresh _ _ _ H))
            | H : find _ _ = None |- ~ In _ (map User.phone _) =>
                exact (proj2 (find_none_fresh _ _ _ H))
            end]
        | apply evolves_changed;
          repeat (apply changed_update; [kept_setter|]);
          apply Forall2_same; exact refl ].

Lemma users_evolve (r : request) (st : Store) :
  evolves User.id user_kept (user_new st) (users st) (users (snd (serve r st))).
Proof.
  destruct r;
    try (rewrite my_messages_store; apply evolves_same, user_kept_refl);
    run_handler; split_lookups_goal; evolves_leaf user_kept_refl.
Qed.

Lemma drivers_evolve (r : request) (st : Store) :
  evolves Driver.id driver_kept driver_new
    (drivers st) (drivers (snd (serve r st))).
Proof.
  destruct r;
    try (rewrite my_messages_store; apply evolves_same, driver_kept_refl);
    run_handler; split_lookups_goal; evolves_leaf driver_kept_refl.
Qed.

Lemma trips_kept_evolve (r : request) (st : Store) :
  evolves Trip.id trip_kept trip_new (trips st) (trips (snd (serve r st))).
Proof.
  destruct r;
    try (rewrite my_messages_store; apply evolves_same, trip_kept_refl);
    run_handler; split_lookups_goal; evolves_leaf trip_kept_refl.
Qed.

Lemma trip_step_refl (st : Store) (t : Trip.t) : trip_step st t t.
Proof. split; [apply trip_kept_refl | now left]. Qed.

Lemma request_trip_run (st : Store) (trip_data : Schemas.TripCreate) :
  serve (RequestTrip trip_data) st =
  let k := next_id (map Trip.id (trips st)) in
  (inl (JDict [("message", JStr "Request accepted. Searching for a driver...");
               ("trip_id", JInt k)]),
   with_trips
     (trips st
      ++ [Trip.mk k (Schemas.client_id trip_data) None
            (Schemas.pickup_location trip_data) (Schemas.destination trip_data)
            "searching" "pending" (Schemas.is_shared trip_data) 4
            (Schemas.is_urgent trip_data) (Schemas.final_price trip_data)
            (Schemas.car_category trip_data)]) st).
Proof. reflexivity. Qed.

(** With distinct trip ids, one request moves each stored trip by at most
    one step of the lifecycle. *)
Lemma trips_step_evolve (r : request) (st : Store) :
  NoDup (map Trip.id (trips st)) ->
  evolves Trip.id (trip_step st) trip_new (trips st) (trips (snd (serve r st))).
Proof.
  intros Hnd.
  pose proof (frame_trips r st) as Hframe.
  destruct r; try (rewrite Hframe; apply evolves_same, trip_step_refl).
  - rewrite request_trip_run. store_simpl.
    apply evolves_added; [apply trip_step_refl | reflexivity | repeat split].
  - rewrite accept_trip_run.
    destruct (find_driver st driver_id) as [d|] eqn:Hd;
      [|apply evolves_same, trip_step_refl].
    destruct (find_trip st trip_id) as [t|] eqn:Ht;
      [|apply evolves_same, trip_step_refl].
    destruct (String.eqb_spec (Trip.status t) "searching") as [E|E];
      [|apply evolves_same, trip_step_refl].
    store_simpl. apply evolves_changed.
    apply (changed_found Trip.id _ (trip_step_refl st) trip_id _ _ t Hnd Ht).
    split; [destruct t; repeat split|].
    right; left. repeat split; [exact E|].
    exists driver_id. split; [reflexivity | congruence].
  - rewrite cancel_trip_run.
    destruct (find_trip st trip_id) as [t|] eqn:Ht;
      [|apply evolves_same, trip_step_refl].
    pose proof (terminal_dec (Trip.status t)) as Hdec.
    destruct (existsb _ _); [apply evolves_same, trip_step_refl|].
    store_simpl. apply evolves_changed.
    apply (changed_found Trip.id _ (trip_step_refl st) trip_id _ _ t Hnd Ht).
    split; [destruct t; repeat split|].
    right; right; left. repeat split. intros H. apply Hdec in H. discriminate.
  - rewrite complete_run.
    destruct (find_trip st trip_id) as [t|] eqn:Ht;
      [|apply evolves_same, trip_step_refl].
    destruct (String.eqb_spec (Trip.status t) "completed") as [E|E];
      [apply evolves_same, trip_step_refl|].
    unfold trip_driver.
    destruct (Trip.driver_id t) as [k|] eqn:Hk;
      [|apply evolves_same, trip_step_refl].
    destruct (find_driver st k) as [d|] eqn:Hd;
      [|apply evolves_same, trip_step_refl].
    store_simpl. apply evolves_changed.
    apply (changed_found Trip.id _ (trip_step_refl st) trip_id _ _ t Hnd Ht).
    split; [destruct t; repeat split|].
    right; right; right. repeat split; [exact E|].
    exists k. split; [exact Hk | congruence].
Qed.

Section EvolutionFacts.
Context {A : Type} (key : A -> Z) (R : A -> A -> Prop) (N : A -> Prop).
Hypothesis R_key : forall a b, R a b -> key b = key a.

Lemma Forall2_keys (l l1 : list A) : Forall2 R l l1 -> map key l1 = map key l.
Proof.
  induction 1 as [|a b l l1 Hab H IH]; [reflexivity|].
  cbn [map]. now rewrite IH, (R_key _ _ Hab).
Qed.

(** A stored row is still stored after the request, under its key, and
    changed within [R]. *)
Lemma evolves_find (l l' : list A) (k : Z) (x : A) :
  evolves key R N l l' ->
  find (fun y => key y =? k) l = Some x ->
  exists x', find (fun y => key y =? k) l' = Some x' /\ R x x'.
Proof.
  intros (l1 & news & -> & H & _) Hx.
  induction H as [|a b l l1 Hab H IH]; [discriminate|].
  cbn [find app] in *. rewrite (R_key _ _ Hab).
  destruct (key a =? k).
  - injection Hx as <-. now exists b.
  - now apply IH.
Qed.

(** Distinct keys stay distinct. *)
Lemma evolves_NoDup (l l' : list A) :
  evolves key R N l l' -> NoDup (map key l) -> NoDup (map key l').
Proof.
  intros (l1 & news & -> & H & Hnews) Hnd.
  rewrite map_app, (Forall2_keys _ _ H).
  destruct Hnews as [-> | (x & -> & Hx & _)].
  - cbn. now rewrite app_nil_r.
  - cbn [map]. apply NoDup_snoc; [exact Hnd|].
    rewrite Hx. apply next_id_fresh.
Qed.

(** Every row of the new table is an old row changed within [R], or the
    added one. *)
Lemma evolves_In (l l' : list A) (x' : A) :
  evolves key R N l l' -> In x' l' ->
  (exists x, In x l /\ R x x') \/ (N x' /\ key x' = next_id (map key l)).
Proof.
  intros (l1 & news & -> & H & Hnews) Hin.
  apply in_app_or in Hin. destruct Hin as [Hin | Hin].
  - left. clear Hnews. induction H as [|a b l l1 Hab H IH]; [destruct Hin|].
    destruct Hin as [<- | Hin].
    + exists a. split; [now left | exact Hab].
    + destruct (IH Hin) as (x & Hx & Hr). exists x. split; [now right | exact Hr].
  - right. destruct Hnews as [-> | (x & -> & Hx & Hn)]; [destruct Hin|].
    destruct Hin as [<- | []]. now split.
Qed.
End EvolutionFacts.

(** ** The unique indexes are kept *)

Lemma NoDup_map_filter {A B} (h : A -> B) (p : A -> bool) (l : list A) :
  NoDup (map h l) -> NoDup (map h (filter p l)).
Proof.
  induction l as [|a l IH]; intros H; [exact H|].
  cbn [map] in H. inversion H as [|? ? Ha Hl]; subst. cbn [filter].
  destruct (p a); [|now apply IH]. cbn [map]. constructor; [|now apply IH].
  intros Hin. apply Ha. apply in_map_iff in Hin.
  destruct Hin as (x & Hx & Hin). apply filter_In in Hin.
  rewrite <- Hx. now apply in_map.
Qed.

Lemma Forall2_map {A B} (R : A -> A -> Prop) (h : A -> B) (l l1 : list A) :
  (forall a b, R a b -> h b = h a) -> Forall2 R l l1 -> map h l1 = map h l.
Proof.
  intros Hh. induction 1 as [|a b l l1 Hab H IH]; [reflexivity|].
  cbn [map]. now rewrite IH, (Hh _ _ Hab).
Qed.

Lemma find_none_not_in {A} (h : A -> string) (v : string) (l : list A) :
  find (fun x => (h x =? v)%string) l = None -> ~ In v (map h l).
Proof.
  intros Hnone Hin. apply in_map_iff in Hin. destruct Hin as (x & Hx & Hin).
  pose proof (find_none _ _ Hnone x Hin) as H. cbv beta in H.
  apply String.eqb_neq in H. congruence.
Qed.

(** A table after one request, for a projection the request can only
    extend with a fresh value or shrink. *)
Ltac nodup_leaf :=
  store_simpl;
  first [ assumption
        | unfold delete_where; now apply NoDup_map_filter
        | rewrite map_app; cbn [map Review.id Message.id PromoCode.id
                                 PromoCode.code];
          apply NoDup_snoc;
          [ assumption
          | first [ apply next_id_fresh | now apply find_none_not_in ] ] ].

Lemma reviews_keys_kept (r : request) (st : Store) :
  NoDup (map Review.id (reviews st)) ->
  NoDup (map Review.id (reviews (snd (serve r st)))).
Proof.
  intros Hnd. destruct r; try (now rewrite my_messages_store);
    run_handler; split_lookups_goal; nodup_leaf.
Qed.

Lemma messages_keys_kept (r : request) (st : Store) :
  NoDup (map Message.id (messages st)) ->
  NoDup (map Message.id (messages (snd (serve r st)))).
Proof.
  intros Hnd. destruct r; try (now rewrite my_messages_store);
    run_handler; split_lookups_goal; nodup_leaf.
Qed.

Lemma promo_keys_kept (r : request) (st : Store) :
  NoDup (map PromoCode.id (promo_codes st)) ->
  NoDup (map PromoCode.id (promo_codes (snd (serve r st)))).
Proof.
  intros Hnd. destruct r; try (now rewrite my_messages_store);
    run_handler; split_lookups_goal; nodup_leaf.
Qed.

Lemma promo_codes_kept (r : request) (st : Store) :
  NoDup (map PromoCode.code (promo_codes st)) ->
  NoDup (map PromoCode.code (promo_codes (snd (serve r st)))).
Proof.
  intros Hnd. destruct r; try (now rewrite my_messages_store);
    run_handler; split_lookups_goal; nodup_leaf.
Qed.

Lemma user_kept_id (a b : User.t) : user_kept a b -> User.id b = User.id a.
Proof. now intros (H & _). Qed.

Lemma user_kept_email (a b : User.t) : user_kept a b -> User.email b = User.email a.
Proof. now intros (_ & _ & H & _). Qed.

Lemma driver_kept_id (a b : Driver.t) : driver_kept a b -> Driver.id b = Driver.id a.
Proof. now intros (H & _). Qed.

Lemma trip_kept_id (a b : Trip.t) : trip_kept a b -> Trip.id b = Trip.id a.
Proof. now intros (H & _). Qed.

Lemma emails_kept (r : request) (st : Store) :
  NoDup (map User.email (users st)) ->
  NoDup (map User.email (users (snd (serve r st)))).
Proof.
  intros Hnd. destruct (users_evolve r st) as (l1 & news & -> & H & Hnews).
  rewrite map_app, (Forall2_map _ _ _ _ user_kept_email H).
  destruct Hnews as [-> | (x & -> & _ & Hx)].
  - cbn. now rewrite app_nil_r.
  - cbn [map]. apply NoDup_snoc; [exact Hnd|]. apply Hx.
Qed.

(** The flush check of [update_user_security]: with distinct ids, a phone
    that no other user has keeps the phones distinct. *)
Lemma phones_after_update (k : Z) (p : string) (l : list User.t) :
  NoDup (map User.id l) ->
  NoDup (map User.phone l) ->
  filter (fun u => negb (User.id u =? k) && (User.phone u =? p)%string)
         (update_where User.id k (User.set_phone p) l) = [] ->
  NoDup (map User.phone (update_where User.id k (User.set_phone p) l)).
Proof.
  induction l as [|a l IH]; intros Hid Hph Hf; [constructor|].
  cbn [map] in Hid, Hph.
  inversion Hid as [|? ? Ha Hl]; inversion Hph as [|? ? Hpa Hpl]; subst.
  cbn [update_where map filter] in *.
  destruct (User.id a =? k) eqn:E.
  - apply Z.eqb_eq in E.
    assert (Hrest : update_where User.id k (User.set_phone p) l = l).
    { apply update_where_absent.
      destruct (find _ l) as [y|] eqn:Ey; [|reflexivity].
      exfalso. apply Ha. rewrite E, <- (find_key User.id _ _ _ Ey).
      apply in_map. now apply (find_some _ _ Ey). }
    unfold update_where in Hrest. rewrite Hrest in *.
    destruct a; cbn [User.id User.phone User.set_phone] in *.
    rewrite E, Z.eqb_refl in Hf. cbn [negb andb] in Hf.
    constructor; [|exact Hpl].
    intros Hin. apply in_map_iff in Hin. destruct Hin as (u & Hu & Hin).
    assert (Hu' : In u (filter (fun u => negb (User.id u =? k)
                                       && (User.phone u =? p)%string) l)).
    { apply filter_In. split; [exact Hin|].
      rewrite Hu, String.eqb_refl.
      destruct (Z.eqb_spec (User.id u) k) as [Ek|Ek]; [|reflexivity].
      exfalso. apply Ha. rewrite E, <- Ek. now apply in_map. }
    rewrite Hf in Hu'. destruct Hu'.
  - rewrite E in Hf. cbn [negb andb] in Hf.
    destruct (String.eqb_spec (User.phone a) p) as [Ep|Ep]; [discriminate|].
    constructor; [|now apply IH].
    intros Hin. apply in_map_iff in Hin. destruct Hin as (u & Hu & Hin).
    apply in_map_iff in Hin. destruct Hin as (v & Hv & Hin).
    destruct (User.id v =? k); subst u.
    + destruct v; cbn [User.phone User.set_phone] in Hu. congruence.
    + apply Hpa. rewrite <- Hu. now apply in_map.
Qed.

Ltac phones_leaf :=
  store_simpl;
  rewrite ?map_update_where by reflexivity;
  first [ assumption
        | rewrite map_app; cbn [map User.phone];
          apply NoDup_snoc;
          [ assumption
          | match goal with
            | H : find _ _ = None |- _ =>
                exact (proj2 (find_none_fresh _ _ _ H))
            end ]
        | apply phones_after_update;
          rewrite ?map_update_where by reflexivity; assumption ].

Lemma phones_kept (r : request) (st : Store) :
  NoDup (map User.id (users st)) ->
  NoDup (map User.phone (users st)) ->
  NoDup (map User.phone (users (snd (serve r st)))).
Proof.
  intros Hid Hnd. destruct r; try (now rewrite my_messages_store);
    run_handler; split_lookups_goal; phones_leaf.
Qed.

Lemma keys_unique_kept (r : request) (st : Store) :
  keys_unique st -> keys_unique (snd (serve r st)).
Proof.
  intros (Hu & Hd & Ht & Hr & Hm & Hp).
  split; [apply (evolves_NoDup _ _ _ user_kept_id _ _ (users_evolve r st) Hu)|].
  split; [apply (evolves_NoDup _ _ _ driver_kept_id _ _ (drivers_evolve r st) Hd)|].
  split; [apply (evolves_NoDup _ _ _ trip_kept_id _ _ (trips_kept_evolve r st) Ht)|].
  split; [now apply reviews_keys_kept|].
  split; [now apply messages_keys_kept | now apply promo_keys_kept].
Qed.

Lemma integrity_kept (r : request) (st : Store) :
  integrity st -> integrity (snd (serve r st)).
Proof.
  intros (Hk & He & Hp & Hc).
  split; [now apply keys_unique_kept|].
  split; [now apply emails_kept|].
  split; [apply phones_kept; [apply Hk | exact Hp] | now apply promo_codes_kept].
Qed.

Lemma serve_all_cons (r : request) (rs : list request) (st : Store) :
  serve_all (r :: rs) st = serve_all rs (snd (serve r st)).
Proof. reflexivity. Qed.

Lemma integrity_along (rs : list request) (st : Store) :
  integrity st -> integrity (serve_all rs st).
Proof.
  revert st. induction rs as [|r rs IH]; intros st H; [exact H|].
  rewrite serve_all_cons. now apply IH, integrity_kept.
Qed.

(** X1. The unique indexes of the schema are an invariant: if primary keys,
    emails, phones and promo codes are pairwise distinct, they still are
    after any request and after any sequence of requests; they are in the
    empty store, hence in every store the API can build. *)
Theorem integrity_invariant :
  (forall (r : request) (st : Store),
     integrity st -> integrity (snd (serve r st))) /\
  (forall (rs : list request) (st : Store),
     integrity st -> integrity (serve_all rs st)) /\
  integrity empty_store.
Proof.
  split; [exact integrity_kept|]. split; [exact integrity_along|].
  repeat split; constructor.
Qed.

(** A small history: two users register, the second sets up as a driver, a
    promo code is created. *)
Lemma integrity_invariant_witness :
  integrity
    (serve_all
       [RegisterUser (Schemas.mkUserCreate "a@test.com" "A" "1" "client" "pw");
        RegisterUser (Schemas.mkUserCreate "b@test.com" "B" "2" "driver" "pw");
        RegisterUser (Schemas.mkUserCreate "a@test.com" "C" "3" "client" "pw");
        UpdateSecurity 2 "pw" None (Some "1");
        SetupDriver 2 "Tesla" "CB1";
        CreatePromoCode "sale" 10; CreatePromoCode "SALE" 20]
       empty_store).
Proof.
  destruct integrity_invariant as (_ & Hseq & Hempty).
  apply Hseq, Hempty.
Defined.

(** ** Nothing is deleted, nothing fixed at creation changes *)

Lemma user_kept_trans (a b c : User.t) :
  user_kept a b -> user_kept b c -> user_kept a c.
Proof. unfold user_kept. intuition congruence. Qed.

Lemma driver_kept_trans (a b c : Driver.t) :
  driver_kept a b -> driver_kept b c -> driver_kept a c.
Proof. unfold driver_kept. intuition congruence. Qed.

Lemma trip_kept_trans (a b c : Trip.t) :
  trip_kept a b -> trip_kept b c -> trip_kept a c.
Proof. unfold trip_kept. intuition congruence. Qed.

Lemma kept_along (rs : list request) (st : Store) :
  (forall k u, find_user st k = Some u ->
     exists u', find_user (serve_all rs st) k = Some u' /\ user_kept u u') /\
  (forall k d, find_driver st k = Some d ->
     exists d', find_driver (serve_all rs st) k = Some d' /\ driver_kept d d') /\
  (forall k t, find_trip st k = Some t ->
     exists t', find_trip (serve_all rs st) k = Some t' /\ trip_kept t t').
Proof.
  revert st. induction rs as [|r rs IH]; intros st.
  - repeat split; intros k x Hx; exists x;
      (split; [exact Hx|]);
      [apply user_kept_refl | apply driver_kept_refl | apply trip_kept_refl].
  - rewrite serve_all_cons.
    destruct (IH (snd (serve r st))) as (IHu & IHd & IHt).
    split; [|split].
    + intros k u Hu.
      destruct (evolves_find _ _ _ user_kept_id _ _ k u (users_evolve r st) Hu)
        as (u1 & Hu1 & H1).
      destruct (IHu k u1 Hu1) as (u2 & Hu2 & H2).
      exists u2. split; [exact Hu2 | now apply (user_kept_trans u u1 u2)].
    + intros k d Hd.
      destruct (evolves_find _ _ _ driver_kept_id _ _ k d (drivers_evolve r st) Hd)
        as (d1 & Hd1 & H1).
      destruct (IHd k d1 Hd1) as (d2 & Hd2 & H2).
      exists d2. split; [exact Hd2 | now apply (driver_kept_trans d d1 d2)].
    + intros k t Ht.
      destruct (evolves_find _ _ _ trip_kept_id _ _ k t (trips_kept_evolve r st) Ht)
        as (t1 & Ht1 & H1).
      destruct (IHt k t1 Ht1) as (t2 & Ht2 & H2).
      exists t2. split; [exact Ht2 | now apply (trip_kept_trans t t1 t2)].
Qed.

(** X2. No request deletes a user, a driver or a trip, and none changes
    what was fixed when the row was created: after any sequence of requests
    a stored user is still found under its id with the same name, email and
    role (still blocked if it was blocked, still verified if it was), a
    driver with the same user, car and plate, a trip with the same client,
    route, options and price. *)
Theorem rows_are_kept (rs : list request) (st : Store) :
  (forall k u, find_user st k = Some u ->
     exists u', find_user (serve_all rs st) k = Some u' /\ user_kept u u') /\
  (forall k d, find_driver st k = Some d ->
     exists d', find_driver (serve_all rs st) k = Some d' /\ driver_kept d d') /\
  (forall k t, find_trip st k = Some t ->
     exists t', find_trip (serve_all rs st) k = Some t' /\ trip_kept t t').
Proof. exact (kept_along rs st). Qed.

(** The blocked user of the sample store after being verified, re-secured
    and a trip being completed. *)
Lemma rows_are_kept_witness :
  let st := serve_all [VerifyDriver 3; UpdateSecurity 3 "letmein" (Some "x") None;
                       Complete 2; BlockUser 1] sample_store in
  exists u', find_user st 3 = Some u' /\ user_kept mallory u'.
Proof.
  intros st.
  destruct (rows_are_kept
              [VerifyDriver 3; UpdateSecurity 3 "letmein" (Some "x") None;
               Complete 2; BlockUser 1] sample_store) as (Hu & _ & _).
  exact (Hu 3 mallory eq_refl).
Defined.

Lemma find_by_key {A} (key : A -> Z) (l : list A) (x : A) :
  NoDup (map key l) -> In x l -> find (fun y => key y =? key x) l = Some x.
Proof.
  induction l as [|a l IH]; intros Hnd Hin; [destruct Hin|].
  cbn [map] in Hnd. inversion Hnd as [|? ? Ha Hl]; subst.
  cbn [find]. destruct Hin as [-> | Hin]; [now rewrite Z.eqb_refl|].
  destruct (Z.eqb_spec (key a) (key x)) as [E|E]; [|now apply IH].
  exfalso. apply Ha. rewrite E. now apply in_map.
Qed.

(** X3. A blocked account stays locked out: once a user is blocked,
    whatever requests are served afterwards, a login with that user's email
    fails for every password.  (No endpoint sets [is_active] back.) *)
Theorem blocked_for_good (rs : list request) (st : Store) (u : User.t)
    (password : string) :
  integrity st ->
  In u (users st) ->
  User.is_active u = false ->
  fails (serve (Login (User.email u) password) (serve_all rs st)).
Proof.
  intros Hint Hin Hblocked.
  assert (Hfind : find_user st (User.id u) = Some u)
    by (apply (find_by_key User.id); [apply Hint | exact Hin]).
  destruct (kept_along rs st) as (Hkept & _ & _).
  destruct (Hkept _ _ Hfind) as (u' & Hu' & Hk).
  destruct Hk as (_ & _ & Hemail & _ & Hactive & _).
  pose proof (integrity_along rs st Hint) as (_ & Hemails & _).
  apply find_some in Hu'. destruct Hu' as [Hin' _].
  pose proof (find_by_email _ _ Hemails Hin') as Hlookup.
  rewrite login_run, <- Hemail, Hlookup, (Hactive Hblocked).
  destruct (negb _); eexists _, _; reflexivity.
Qed.

(** Mallory, blocked in the sample store, after changing her password. *)
Lemma blocked_for_good_witness :
  fails (serve (Login "mallory@test.com" "new")
           (serve_all [UpdateSecurity 3 "letmein" (Some "new") None;
                       VerifyDriver 3] sample_store)).
Proof.
  apply (blocked_for_good
           [UpdateSecurity 3 "letmein" (Some "new") None; VerifyDriver 3]
           sample_store mallory "new").
  - repeat split; cbn; repeat constructor; cbn; intuition discriminate.
  - cbn. tauto.
  - reflexivity.
Defined.

(** ** The lifecycle as the handlers enforce it *)

(** X4. With distinct trip ids, one request leaves a stored trip as
    it is or moves it one step: searching to accepted (driver assigned and
    existing), a trip that is neither completed nor cancelled to cancelled,
    or a trip that is not completed (a cancelled one included) to completed
    and paid, its driver existing.  Route, client, options and price never
    change. *)
Theorem trip_lifecycle (r : request) (st : Store) (k : Z) (t : Trip.t) :
  NoDup (map Trip.id (trips st)) ->
  find_trip st k = Some t ->
  exists t', find_trip (snd (serve r st)) k = Some t' /\ trip_step st t t'.
Proof.
  intros Hnd Ht.
  apply (evolves_find Trip.id (trip_step st) trip_new) with (l := trips st).
  - intros a b (H & _). now apply trip_kept_id.
  - now apply trips_step_evolve.
  - exact Ht.
Qed.

(** The cancelled trip 4 of the sample store under [Complete]. *)
Lemma trip_lifecycle_witness :
  exists t', find_trip (snd (serve (Complete 4) sample_store)) 4 = Some t' /\
             trip_step sample_store (trip_in 4 1 (Some 1) "cancelled" 25.0%float) t'.
Proof.
  apply (trip_lifecycle (Complete 4) sample_store 4).
  - cbn. repeat constructor; cbn; intuition discriminate.
  - reflexivity.
Defined.

Lemma completed_step (st : Store) (t t' : Trip.t) :
  Trip.status t = "completed" -> trip_step st t t' -> t' = t.
Proof.
  intros Hs (_ & [H | [(H & _) | [(H & _) | (H & _)]]]).
  - exact H.
  - rewrite Hs in H. discriminate.
  - exfalso. apply H. now left.
  - contradiction.
Qed.

(** X5. A completed trip is final: with distinct trip ids, after any
    sequence of requests it is stored exactly as it was (status, payment
    status, driver and all). *)
Theorem completed_trip_is_final (rs : list request) (st : Store) (k : Z)
    (t : Trip.t) :
  NoDup (map Trip.id (trips st)) ->
  find_trip st k = Some t ->
  Trip.status t = "completed" ->
  find_trip (serve_all rs st) k = Some t.
Proof.
  revert st. induction rs as [|r rs IH]; intros st Hnd Ht Hs; [exact Ht|].
  rewrite serve_all_cons. apply IH; [| |exact Hs].
  - apply (evolves_NoDup _ _ _ trip_kept_id _ _ (trips_kept_evolve r st) Hnd).
  - destruct (evolves_find Trip.id (trip_step st) trip_new
                (fun a b H => trip_kept_id a b (proj1 H))
                _ _ k t (trips_step_evolve r st Hnd) Ht) as (t' & Ht' & Hstep).
    now rewrite (completed_step st t t' Hs Hstep) in Ht'.
Qed.

(** The completed trip 3 of the sample store, through attempts to accept,
    cancel, complete and review it. *)
Lemma completed_trip_is_final_witness :
  find_trip (serve_all [Accept 3 1; Cancel 3; Complete 3; LeaveReview 3 5 "ok"]
               sample_store) 3
  = Some (trip_in 3 1 (Some 1) "completed" 25.0%float).
Proof.
  apply (completed_trip_is_final
           [Accept 3 1; Cancel 3; Complete 3; LeaveReview 3 5 "ok"] sample_store 3).
  - cbn. repeat constructor; cbn; intuition discriminate.
  - reflexivity.
  - reflexivity.
Defined.

Lemma driver_resolves_kept (r : request) (st : Store) (t t' : Trip.t) :
  Trip.driver_id t' = Trip.driver_id t ->
  driver_resolves st t -> driver_resolves (snd (serve r st)) t'.
Proof.
  intros Hid (k & Hk & Hd). exists k. split; [congruence|].
  destruct (find_driver st k) as [d|] eqn:E; [|congruence].
  destruct (evolves_find _ _ _ driver_kept_id _ _ k d (drivers_evolve r st) E)
    as (d' & Hd' & _).
  unfold find_driver. now rewrite Hd'.
Qed.

Lemma trips_consistent_kept (r : request) (st : Store) :
  NoDup (map Trip.id (trips st)) ->
  trips_consistent st -> trips_consistent (snd (serve r st)).
Proof.
  intros Hnd Hall. unfold trips_consistent in *. rewrite Forall_forall in *.
  intros t' Hin.
  destruct (evolves_In Trip.id (trip_step st) trip_new _ _ t'
              (trips_step_evolve r st Hnd) Hin)
    as [(t & Ht & Hkept & Hstep) | ((Hs & Hp & Hd) & _)].
  2:{ left. now repeat split. }
  specialize (Hall t Ht).
  destruct Hstep as [-> | [(Hs & Hs' & Hp & Hd) | [(Hs & Hs' & Hp & Hd)
                                                 | (Hs & Hs' & Hp & Hd & Hr)]]].
  - destruct Hall as [H | [(H1 & H2 & H3) | [H | (H1 & H2 & H3)]]].
    + now left.
    + right; left. repeat split; try assumption.
      now apply (driver_resolves_kept r st t t).
    + right; right; now left.
    + right; right; right. repeat split; try assumption.
      now apply (driver_resolves_kept r st t t).
  - right; left. split; [exact Hs'|]. split.
    + rewrite Hp.
      destruct Hall as [(_ & H & _) | [(H & _) | [(H & _) | (H & _)]]];
        [exact H | | |]; rewrite Hs in H; discriminate.
    + now apply (driver_resolves_kept r st t' t').
  - right; right; left. split; [exact Hs'|]. rewrite Hp.
    destruct Hall as [(_ & H & _) | [(_ & H & _) | [(_ & H) | (H & _)]]];
      try exact H.
    exfalso. apply Hs. now left.
  - right; right; right. split; [exact Hs'|]. split; [exact Hp|].
    now apply (driver_resolves_kept r st t t').
Qed.

(** X6. Whatever sequence of requests is served from the empty
    store, every stored trip is in one of four shapes: searching, unpaid and
    without driver; accepted, unpaid, by a driver that exists; cancelled and
    unpaid; completed, paid, with a driver that exists.  So no trip is ever
    [started], a trip is paid exactly when it is completed, and the driver of
    a completed trip always resolves. *)
Theorem trips_stay_consistent (rs : list request) :
  trips_consistent (serve_all rs empty_store) /\
  forall t, In t (trips (serve_all rs empty_store)) ->
    Trip.status t <> "started" /\
    (Trip.payment_status t = "paid" <-> Trip.status t = "completed") /\
    (Trip.status t = "completed" ->
     exists k d, Trip.driver_id t = Some k /\
                 find_driver (serve_all rs empty_store) k = Some d).
Proof.
  assert (Hinv : forall rs st, integrity st -> trips_consistent st ->
                   trips_consistent (serve_all rs st)).
  { clear rs. induction rs as [|r rs IH]; intros st Hint Hc; [exact Hc|].
    rewrite serve_all_cons. apply IH.
    - now apply integrity_kept.
    - apply trips_consistent_kept; [apply Hint | exact Hc]. }
  assert (Hc : trips_consistent (serve_all rs empty_store)).
  { apply Hinv; [repeat split; constructor | constructor]. }
  split; [exact Hc|].
  intros t Hin. unfold trips_consistent in Hc. rewrite Forall_forall in Hc.
  specialize (Hc t Hin).
  destruct Hc as [(Hs & Hp & Hd) | [(Hs & Hp & Hd) | [(Hs & Hp)
                                                     | (Hs & Hp & Hd)]]];
    rewrite Hs, Hp.
  1-3: split; [discriminate|]; split;
       [split; discriminate | discriminate].
  split; [discriminate|]. split; [tauto|]. intros _.
  destruct Hd as (k & Hk & Hd). exists k.
  destruct (find_driver _ k) as [d|]; [|congruence]. now exists d.
Qed.

(** A registration, a driver profile and a ride. *)
Lemma trips_stay_consistent_witness :
  let rs := [RegisterUser (Schemas.mkUserCreate "b@test.com" "B" "2" "driver" "pw");
             SetupDriver 1 "Tesla" "CB1";
             RequestTrip (Schemas.mkTripCreate 7 "A" "B" "Standard" 12.0%float
                            false false);
             Accept 1 1; Complete 1] in
  exists t, In t (trips (serve_all rs empty_store)) /\
            Trip.status t = "completed" /\ Trip.payment_status t = "paid".
Proof.
  intros rs.
  set (t := Trip.mk 1 7 (Some 1) "A" "B" "completed" "paid" false 4 false
              12.0%float "Standard").
  assert (Hin : In t (trips (serve_all rs empty_store))) by (now left).
  destruct (trips_stay_consistent rs) as (_ & H).
  destruct (H t Hin) as (_ & Hpaid & _).
  exists t. split; [exact Hin|]. split; [reflexivity | now apply Hpaid].
Defined.

(** ** A ride from request to payment *)






(** ** Accounts and driver profiles, end to end *)

Lemma find_snoc_none {A} (p : A -> bool) (l : list A) (x : A) :
  find p l = None -> find p (l ++ [x]) = if p x then Some x else None.
Proof.
  induction l as [|a l IH]; cbn [app find]; [reflexivity|].
  destruct (p a); [discriminate | exact IH].
Qed.

(** X9. A registration that succeeds can log in at once: the
    login with the registered email and password succeeds and returns the id,
    name and role that the registration returned. *)
Theorem register_then_login (st : Store) (user_in : Schemas.UserCreate) :
  ~ taken st user_in ->
  let out := serve (RegisterUser user_in) st in
  succeeds out /\
  serve (Login (Schemas.email user_in) (Schemas.password user_in)) (snd out)
  = (fst out, snd out).
Proof.
  intros Hfree out. subst out. rewrite register_user_run.
  pose proof (taken_find st user_in) as Htaken.
  destruct (find _ (users st)) as [u|] eqn:E;
    [exfalso; apply Hfree, Htaken; discriminate|].
  cbn [fst snd]. split; [eexists _, _; reflexivity|].
  rewrite login_run. store_simpl.
  assert (Hnone : find (fun u => (User.email u =? Schemas.email user_in)%string)
                    (users st) = None).
  { destruct (find (fun u => (User.email u =? Schemas.email user_in)%string)
                (users st)) as [v|] eqn:Ev; [|reflexivity].
    exfalso. apply Hfree. apply find_some in Ev. destruct Ev as [Hin Hv].
    apply String.eqb_eq in Hv. exists v. tauto. }
  rewrite (find_snoc_none _ _ _ Hnone).
  cbn [registered User.email User.password User.is_active User.id
       User.full_name User.role].
  now rewrite !String.eqb_refl.
Qed.

(** A fresh registration in the sample store. *)
Lemma register_then_login_witness :
  let new := Schemas.mkUserCreate "new@test.com" "New User" "0888000001"
               "client.html" "securepassword" in
  fst (serve (Login "new@test.com" "securepassword")
         (snd (serve (RegisterUser new) sample_store)))
  = inl (JDict [("id", JInt 4); ("full_name", JStr "New User");
                ("role", JStr "client.html")]).
Proof.
  intros new.
  destruct (register_then_login sample_store new) as (_ & H).
  - intros (u & Hin & H). cbn in Hin.
    destruct Hin as [<- | [<- | [<- | []]]];
      destruct H as [H | H]; vm_compute in H; discriminate.
  - cbn [Schemas.email Schemas.password new] in H. now rewrite H.
Defined.

Lemma setup_driver_run (st : Store) (user_id : Z) (car_model license_plate : string) :
  serve (SetupDriver user_id car_model license_plate) st =
  match find_user st user_id with
  | None => (inr (HTTPException 404 "User not found."), st)
  | Some u =>
      if negb (User.role u =? "driver")%string
      then (inr (HTTPException 400
                   "User does not have permission to be a driver"), st)
      else
        match find (fun d => Driver.user_id d =? user_id) (drivers st) with
        | Some d =>
            (inl (JDict [("message", JStr "Driver profile is already set up");
                         ("driver_id", JInt (Driver.id d))]), st)
        | None =>
            let k := next_id (map Driver.id (drivers st)) in
            (inl (JDict [("message", JStr "Driver profile is ready for use");
                         ("driver_id", JInt k)]),
             with_drivers
               (drivers st
                ++ [Driver.mk k user_id car_model "Economy" license_plate None
                      1.20%float "24/7" "Център" 5.0%float false 0.0%float])
               st)
        end
  end.
Proof.
  unfold find_user. run_handler.
  destruct (find _ (users st)) as [u|]; cbn [working persisted]; [|reflexivity].
  destruct (negb _); cbn [working persisted]; [reflexivity|].
  destruct (find _ (drivers st)); reflexivity.
Qed.



Lemma Forall2_eq {A} (l l' : list A) : Forall2 (fun a b => b = a) l l' -> l' = l.
Proof. induction 1; [reflexivity | now subst]. Qed.

(** With distinct keys, an update that gives the found row back changes
    nothing. *)
Lemma update_where_fixed {A} (key : A -> Z) (k : Z) (f : A -> A) (l : list A)
    (x : A) :
  NoDup (map key l) ->
  find (fun y => key y =? k) l = Some x ->
  f x = x -> update_where key k f l = l.
Proof.
  intros Hnd Hx Hf. apply Forall2_eq.
  now apply (changed_found key (fun a b => b = a) (fun _ => eq_refl) k f l x).
Qed.

Lemma update_status_run (st : Store) (driver_id : Z) :
  serve (ToggleShift driver_id) st =
  match find_driver st driver_id with
  | None => (inr (HTTPException 404 "Driver not found."), st)
  | Some d =>
      (inl (message "Shift status updated successfully"),
       with_drivers
         (update_where Driver.id driver_id
            (Driver.set_is_online (negb (Driver.is_online d))) (drivers st)) st)
  end.
Proof.
  unfold find_driver. run_handler.
  destruct (find _ (drivers st)) as [d|] eqn:Hd; cbn [working persisted];
    [|reflexivity].
  now rewrite (find_key Driver.id _ _ _ Hd).
Qed.

(** X11. The shift toggle flips [is_online] and nothing else, and with
    distinct driver ids toggling twice gives the store back. *)
Theorem shift_toggle_twice (st : Store) (k : Z) (d : Driver.t) :
  NoDup (map Driver.id (drivers st)) ->
  find_driver st k = Some d ->
  find_driver (snd (serve (ToggleShift k) st)) k
  = Some (Driver.set_is_online (negb (Driver.is_online d)) d) /\
  serve_all [ToggleShift k; ToggleShift k] st = st.
Proof.
  intros Hnd Hd.
  assert (H1 : find_driver (snd (serve (ToggleShift k) st)) k
               = Some (Driver.set_is_online (negb (Driver.is_online d)) d)).
  { rewrite update_status_run, Hd. unfold find_driver in *. store_simpl.
    rewrite find_update_where_same by reflexivity. now rewrite Hd. }
  split; [exact H1|].
  change (serve_all [ToggleShift k; ToggleShift k] st)
    with (snd (serve (ToggleShift k) (snd (serve (ToggleShift k) st)))).
  rewrite (update_status_run (snd _)), H1.
  rewrite update_status_run, Hd. store_simpl.
  rewrite update_where_twice by reflexivity.
  rewrite (update_where_fixed Driver.id k _ (drivers st) d Hnd Hd).
  - now destruct st.
  - destruct d. cbn. now rewrite negb_involutive.
Qed.

(** The driver of the sample store goes off line and on again. *)
Lemma shift_toggle_twice_witness :
  option_map Driver.is_online
    (find_driver (snd (serve (ToggleShift 1) sample_store)) 1) = Some false /\
  serve_all [ToggleShift 1; ToggleShift 1] sample_store = sample_store.
Proof.
  destruct (shift_toggle_twice sample_store 1 tesla) as (H1 & H2).
  - cbn. repeat constructor. cbn. tauto.
  - reflexivity.
  - split; [now rewrite H1 | exact H2].
Defined.

Lemma change_password_run (st : Store) (user_id : Z) (password new : string)
    (u : User.t) :
  find_user st user_id = Some u ->
  User.password u = password ->
  new <> "" ->
  serve (UpdateSecurity user_id password (Some new) None) st
  = (inl (message "Security settings updated successfully"),
     with_users (update_where User.id user_id (User.set_password new) (users st))
       st).
Proof.
  unfold find_user. intros Hu Hp Hnew. run_handler. rewrite Hu.
  cbn [working persisted]. rewrite Hp, String.eqb_refl. cbn [negb].
  destruct new; [congruence|]. cbn [Py.truthy working persisted].
  now rewrite (find_key User.id _ _ _ Hu).
Qed.

(** X12. Changing the password takes effect for login: after
    [UpdateSecurity] with the current password and a non-empty new one, an
    active user logs in with the new password and, if it differs, no longer
    with the old one (401).  With a wrong current password the request fails
    with 401. *)
Theorem password_change (st : Store) (user_id : Z) (new : string) (u : User.t) :
  integrity st ->
  find_user st user_id = Some u ->
  new <> "" ->
  let out := serve (UpdateSecurity user_id (User.password u) (Some new) None) st in
  fst out = inl (message "Security settings updated successfully") /\
  find_user (snd out) user_id = Some (User.set_password new u) /\
  (User.is_active u = true ->
   succeeds (serve (Login (User.email u) new) (snd out))) /\
  (new <> User.password u ->
   fst (serve (Login (User.email u) (User.password u)) (snd out))
   = inr (HTTPException 401 "Incorrect email or password.")) /\
  (forall wrong, wrong <> User.password u ->
     serve (UpdateSecurity user_id wrong (Some new) None) st
     = (inr (HTTPException 401 "Invalid current password!"), st)).
Proof.
  intros Hint Hu Hnew out. subst out.
  rewrite (change_password_run st user_id _ new u Hu eq_refl Hnew).
  cbn [fst snd].
  assert (Hu' : find_user
                  (with_users
                     (update_where User.id user_id (User.set_password new)
                        (users st)) st) user_id
                = Some (User.set_password new u)).
  { unfold find_user in *. store_simpl.
    rewrite find_update_where_same by reflexivity. now rewrite Hu. }
  assert (Hlookup : find (fun x => (User.email x =? User.email u)%string)
                      (update_where User.id user_id (User.set_password new)
                         (users st))
                    = Some (User.set_password new u)).
  { change (User.email u) with (User.email (User.set_password new u)).
    apply find_by_email.
    - rewrite map_update_where by reflexivity. apply Hint.
    - unfold find_user in Hu'. store_simpl. now apply (find_some _ _ Hu'). }
  split; [reflexivity|]. split; [exact Hu'|]. split; [|split].
  - intros Hactive. rewrite login_run. store_simpl. rewrite Hlookup.
    cbn [User.password User.set_password User.is_active].
    rewrite String.eqb_refl, Hactive. eexists _, _; reflexivity.
  - intros Hdiff. rewrite login_run. store_simpl. rewrite Hlookup.
    cbn [User.password User.set_password fst].
    apply String.eqb_neq in Hdiff. now rewrite Hdiff.
  - intros wrong Hwrong. unfold find_user in Hu. run_handler. rewrite Hu.
    cbn [working persisted].
    replace (User.password u =? wrong)%string with false; [reflexivity|].
    symmetry. apply String.eqb_neq. congruence.
Qed.

(** Alice changes her password in the sample store. *)
Lemma password_change_witness :
  succeeds (serve (Login "alice@test.com" "s3cret")
              (snd (serve (UpdateSecurity 1 "secret" (Some "s3cret") None)
                      sample_store))) /\
  fst (serve (Login "alice@test.com" "secret")
         (snd (serve (UpdateSecurity 1 "secret" (Some "s3cret") None)
                 sample_store)))
  = inr (HTTPException 401 "Incorrect email or password.").
Proof.
  destruct (password_change sample_store 1 "s3cret" alice)
    as (_ & _ & Hnew & Hold & _).
  - repeat split; cbn; repeat constructor; cbn; intuition discriminate.
  - reflexivity.
  - discriminate.
  - split; [apply Hnew; reflexivity | apply Hold; discriminate].
Defined.

(** ** Promo codes, end to end *)







(** ** Deleting a review *)

Lemma delete_review_run (st : Store) (review_id : Z) :
  serve (DeleteReview review_id) st =
  match find (fun r => Review.id r =? review_id) (reviews st) with
  | None => (inr (HTTPException 404 "Review is not found."), st)
  | Some _ =>
      (inl (message "Review removed successfully."),
       with_reviews (delete_where Review.id review_id (reviews st)) st)
  end.
Proof.
  run_handler.
  destruct (find _ (reviews st)) as [rv|] eqn:E; cbn [working persisted];
    [|reflexivity].
  now rewrite (find_key Review.id _ _ _ E).
Qed.




(** ** What the listings show *)



Lemma filter_snoc {A} (p : A -> bool) (l : list A) (x : A) :
  filter p (l ++ [x]) = (filter p l ++ if p x then [x] else [])%list.
Proof. rewrite filter_app. reflexivity. Qed.




(** ** Messages *)







Lemma insert_asc_In {A} (key : A -> Z) (a x : A) (l : list A) :
  In x (Listings.insert_asc key a l) <-> x = a \/ In x l.
Proof.
  induction l as [|y l IH]; cbn [Listings.insert_asc In].
  - intuition congruence.
  - destruct (key a <? key y); cbn [In]; [intuition congruence|].
    rewrite IH. intuition congruence.
Qed.

Lemma order_by_asc_In {A} (key : A -> Z) (x : A) (l : list A) :
  In x (Listings.order_by_asc key l) <-> In x l.
Proof.
  unfold Listings.order_by_asc. induction l as [|a l IH]; [reflexivity|].
  cbn [fold_right In]. rewrite insert_asc_In, IH. intuition congruence.
Qed.



(** Two entries that differ by a function of the result. *)
Lemma mapM_mapped {A B} (f g : A -> M B) (h : B -> B) (l : list A)
    (s : Session) :
  (forall x s, In x l ->
     g x s = (match fst (f x s) with
              | inl y => inl (h y)
              | inr e => inr e
              end, snd (f x s))) ->
  mapM g l s = (match fst (mapM f l s) with
                | inl ys => inl (map h ys)
                | inr e => inr e
                end, snd (mapM f l s)).
Proof.
  revert s. induction l as [|x l IH]; intros s Hg; [reflexivity|].
  cbn [mapM]. unfold bind, ret.
  rewrite (Hg x s (or_introl eq_refl)).
  destruct (f x s) as [[y|e] s1]; cbn [fst snd]; [|reflexivity].
  rewrite IH by (intros x' s' Hx'; apply Hg; now right).
  destruct (mapM f l s1) as [[ys|e] s2]; reflexivity.
Qed.


Lemma chat_entry_read_only (user_one_id : Z) (msg : Message.t) :
  read_only (Listings.chat_entry user_one_id msg).
Proof.
  intros s. unfold Listings.chat_entry, relationship, query_first, getattr,
    bind, ret, raise, Users, rows, pk.
  now destruct (find _ _).
Qed.


(** X18. The two participants see the same conversation.  For two
    different users, the chat history asked by one and the one asked by the
    other either both fail with the same error or list the same messages in
    the same order, each entry differing only in [is_me], which is
    flipped; neither call changes the store. *)
Theorem chat_history_symmetric (st : Store) (a b : Z) :
  a <> b ->
  (forall history,
     fst (get_db (Listings.get_chat_history a b) st)
     = inl (JDict [("chat_history", JList history)]) ->
     get_db (Listings.get_chat_history b a) st
     = (inl (JDict [("chat_history", JList (map flip_is_me history))]), st)) /\
  (forall e,
     fst (get_db (Listings.get_chat_history a b) st) = inr e ->
     get_db (Listings.get_chat_history b a) st = (inr e, st)).
Proof.
  intros Hab.
  assert (H : get_db (Listings.get_chat_history b a) st
              = (match fst (get_db (Listings.get_chat_history a b) st) with
                 | inl (JDict [(_, JList history)]) =>
                     inl (JDict [("chat_history",
                                  JList (map flip_is_me history))])
                 | other => other
                 end, st)).
  { unfold get_db, Listings.get_chat_history, bind, ret, query_all, Messages, rows.
    cbn [working persisted].
    rewrite (filter_ext
               (fun m => (Message.sender_id m =? b) && (Message.receiver_id m =? a)
                         || (Message.sender_id m =? a) && (Message.receiver_id m =? b))
               (fun m => (Message.sender_id m =? a) && (Message.receiver_id m =? b)
                         || (Message.sender_id m =? b) && (Message.receiver_id m =? a)))
      by (intros m; apply orb_comm).
    match goal with
    | |- context [mapM (Listings.chat_entry b) ?l ?s0] =>
        rewrite (mapM_mapped (Listings.chat_entry a) (Listings.chat_entry b)
                   flip_is_me l s0);
        [pose proof (mapM_read_only _ l (chat_entry_read_only a) s0) as Hro;
         destruct (mapM (Listings.chat_entry a) l s0) as [[ys|e] s1];
         cbn [fst snd] in Hro |- *; now subst
        |]
    end.
    intros m s Hm. apply order_by_asc_In, filter_In in Hm.
    destruct Hm as [_ Hm].
    unfold Listings.chat_entry, relationship, query_first, getattr, bind, ret,
      raise, Users, rows, pk.
    destruct (find _ _); cbn [fst snd flip_is_me]; [|reflexivity].
    do 4 f_equal.
    destruct (Z.eqb_spec (Message.sender_id m) a) as [Ea|Ea],
             (Z.eqb_spec (Message.sender_id m) b) as [Eb|Eb];
      cbn [andb orb negb] in Hm |- *; congruence. }
  split.
  - intros history Hh. rewrite H, Hh. reflexivity.
  - intros e He. rewrite H, He. reflexivity.
Qed.

(** Alice and Ivan write to each other; Ivan's view of the chat. *)
Lemma chat_history_symmetric_witness :
  let st := serve_all [SendMessage 1 2 "Where are you?";
                       SendMessage 2 1 "Two minutes"] sample_store in
  get_db (Listings.get_chat_history 2 1) st
  = (inl (JDict [("chat_history",
                  JList [JDict [("sender_name", JStr "Alice Smith");
                                ("content", JStr "Where are you?");
                                ("is_me", JBool false)];
                         JDict [("sender_name", JStr "Ivan Ivanov");
                                ("content", JStr "Two minutes");
                                ("is_me", JBool true)]])]), st).
Proof.
  intros st.
  assert (Hne : 1 <> 2) by discriminate.
  exact (proj1 (chat_history_symmetric st 1 2 Hne) _ eq_refl).
Defined.



(** ** Driver profiles and their users *)

Lemma find_none_key_not_in {A} (h : A -> Z) (v : Z) (l : list A) :
  find (fun x => h x =? v) l = None -> ~ In v (map h l).
Proof.
  intros Hnone Hin. apply in_map_iff in Hin. destruct Hin as (x & Hx & Hin).
  pose proof (find_none _ _ Hnone x Hin) as H. cbv beta in H.
  apply Z.eqb_neq in H. congruence.
Qed.

(** Only [setup_driver] adds a driver, for a user it has found with the
    role of a driver and without a profile. *)
Lemma drivers_set_up (r : request) (st : Store) :
  evolves Driver.id driver_kept (driver_set_up st)
    (drivers st) (drivers (snd (serve r st))).
Proof.
  destruct r;
    try (rewrite my_messages_store; apply evolves_same, driver_kept_refl);
    match goal with
    | |- context [SetupDriver ?u _ _] =>
        rewrite setup_driver_run; unfold find_user;
        destruct (find (fun x => User.id x =? u) (users st)) as [usr|] eqn:Eu;
        [destruct (User.role usr =? "driver")%string eqn:Er;
         [destruct (find (fun d => Driver.user_id d =? u) (drivers st))
            as [drv|] eqn:Ed|]|];
        cbn [negb snd]; try (apply evolves_same, driver_kept_refl)
    | _ => run_handler; split_lookups_goal; evolves_leaf driver_kept_refl
    end.
  store_simpl. apply evolves_added; [exact driver_kept_refl | reflexivity|].
  split; [repeat split|]. split.
  - exists usr. split; [exact Eu | now apply String.eqb_eq].
  - now apply find_none_key_not_in.
Qed.

Lemma driver_accounts_kept (r : request) (st : Store) :
  driver_accounts st -> driver_accounts (snd (serve r st)).
Proof.
  intros [Hall Hnd].
  pose proof (drivers_set_up r st) as Hev.
  pose proof (users_evolve r st) as Hus.
  assert (Hstill : forall d d', has_driver_account st d ->
                     Driver.user_id d' = Driver.user_id d ->
                     has_driver_account (snd (serve r st)) d').
  { intros d d' (u & Hu & Hrole) E. unfold has_driver_account. rewrite E.
    destruct (evolves_find User.id user_kept (user_new st) user_kept_id
                _ _ _ _ Hus Hu) as (u' & Hu' & Hk).
    exists u'. split; [exact Hu'|].
    destruct Hk as (_ & _ & _ & Hr & _). congruence. }
  split.
  - apply Forall_forall. intros d' Hd'.
    destruct (evolves_In Driver.id driver_kept (driver_set_up st) _ _ _ Hev Hd')
      as [(d & Hd & Hk) | ((_ & Hacc & _) & _)].
    + rewrite Forall_forall in Hall.
      apply (Hstill d d' (Hall d Hd)). now destruct Hk as (_ & H & _).
    + now apply (Hstill d' d').
  - destruct Hev as (l1 & news & -> & H2 & Hnews).
    rewrite map_app.
    rewrite (Forall2_map driver_kept Driver.user_id _ _
               (fun a b (H : driver_kept a b) => proj1 (proj2 H)) H2).
    destruct Hnews as [-> | (x & -> & _ & (_ & _ & Hx))].
    + cbn. now rewrite app_nil_r.
    + cbn [map]. now apply NoDup_snoc.
Qed.

Lemma driver_accounts_along (rs : list request) (st : Store) :
  driver_accounts st -> driver_accounts (serve_all rs st).
Proof.
  revert st. induction rs as [|r rs IH]; intros st H; [exact H|].
  rewrite serve_all_cons. now apply IH, driver_accounts_kept.
Qed.

(** X20. Driver profiles stay attached to driver accounts: if every
    driver profile belongs to an existing user whose role is 'driver' and no
    user has two profiles, this is still so after any request and after any
    sequence of requests; it is so in the empty store, hence in every store
    the API can build. *)
Theorem driver_accounts_invariant :
  (forall (r : request) (st : Store),
     driver_accounts st -> driver_accounts (snd (serve r st))) /\
  (forall (rs : list request) (st : Store),
     driver_accounts st -> driver_accounts (serve_all rs st)) /\
  (forall rs : list request, driver_accounts (serve_all rs empty_store)).
Proof.
  split; [exact driver_accounts_kept|].
  split; [exact driver_accounts_along|].
  intros rs. apply driver_accounts_along. split; constructor.
Qed.

(** The sample store, where the one profile is Ivan's, and three more
    requests. *)
Lemma driver_accounts_invariant_witness :
  driver_accounts
    (serve_all [SetupDriver 2 "BMW" "CA0001AA"; SetupDriver 1 "Audi" "CA0002AA";
                ToggleShift 1] sample_store).
Proof.
  apply (proj1 (proj2 driver_accounts_invariant)).
  split.
  - repeat constructor. exists ivan. split; reflexivity.
  - repeat constructor. intros [].
Defined.



Lemma mapM_succeeds {A B} (f : A -> M B) (l : list A) (s : Session) :
  (forall x, In x l -> exists y, f x s = (inl y, s)) ->
  exists ys, mapM f l s = (inl ys, s).
Proof.
  induction l as [|x l IH]; intros Hf; [now exists []|].
  destruct (Hf x (or_introl eq_refl)) as (y & Hy).
  destruct IH as (ys & Hys); [intros x' Hx'; apply Hf; now right|].
  exists (y :: ys). cbn [mapM]. unfold bind, ret. now rewrite Hy, Hys.
Qed.


(** ** A ride, seen from the other endpoints *)











(** ** The verification queue *)

Lemma verify_driver_run (st : Store) (user_id : Z) :
  serve (VerifyDriver user_id) st =
  match find_user st user_id with
  | None => (inr (HTTPException 404 "User not found in the database."), st)
  | Some u =>
      (inl (message ("Driver " ++ User.full_name u ++ " is verified.")),
       with_users
         (update_where User.id user_id (User.set_is_verified true) (users st))
         st)
  end.
Proof.
  unfold find_user. run_handler.
  destruct (find _ (users st)) as [u|] eqn:E; cbn [working persisted];
    [|reflexivity].
  now rewrite (find_key User.id _ _ _ E).
Qed.

Lemma unverified_after_verify (uid : Z) (l : list User.t) :
  let waiting (u : User.t) :=
    (User.role u =? "driver")%string && negb (User.is_verified u) in
  let entry (d : User.t) :=
    JDict [("user_id", JInt (User.id d)); ("full_name", JStr (User.full_name d))] in
  map entry
    (filter waiting (update_where User.id uid (User.set_is_verified true) l))
  = filter (fun e => negb (queued_as uid e)) (map entry (filter waiting l)).
Proof.
  intros waiting entry. unfold update_where.
  induction l as [|a l IH]; [reflexivity|].
  cbn [map filter]. destruct (User.id a =? uid) eqn:E.
  - replace (waiting (User.set_is_verified true a)) with false
      by (unfold waiting; cbn [User.is_verified User.set_is_verified negb];
          now rewrite andb_false_r).
    destruct (waiting a); [|exact IH].
    cbn [map filter queued_as entry]. rewrite E. exact IH.
  - destruct (waiting a); [|exact IH].
    cbn [map filter queued_as entry]. rewrite E. cbn [negb]. now rewrite IH.
Qed.

(** X25. The verification queue.  A user enters the list of unverified
    drivers by registering with the role 'driver', at its end, and with no
    other role; [verify_driver] answers for any user that exists, whatever
    the role, and takes the entries of that user out of the list, the rest
    staying as it was. *)
Theorem verification_queue (st : Store) (queue : list json) :
  fst (get_db Listings.get_unverified_drivers st)
  = inl (JDict [("drivers", JList queue)]) ->
  (forall user_in,
     succeeds (serve (RegisterUser user_in) st) ->
     let st1 := snd (serve (RegisterUser user_in) st) in
     get_db Listings.get_unverified_drivers st1
     = (inl (JDict [("drivers",
                     JList (queue
                            ++ if (Schemas.role user_in =? "driver")%string
                               then [JDict [("user_id",
                                             JInt (next_id
                                                     (map User.id (users st))));
                                            ("full_name",
                                             JStr (Schemas.full_name user_in))]]
                               else []))]), st1)) /\
  (forall uid u,
     find_user st uid = Some u ->
     let st1 := snd (serve (VerifyDriver uid) st) in
     fst (serve (VerifyDriver uid) st)
     = inl (message ("Driver " ++ User.full_name u ++ " is verified.")) /\
     get_db Listings.get_unverified_drivers st1
     = (inl (JDict [("drivers",
                     JList (filter (fun e => negb (queued_as uid e)) queue))]),
        st1)).
Proof.
  intros Hq.
  unfold get_db, Listings.get_unverified_drivers, bind, ret, query_all, Users,
    rows in Hq |- *.
  cbn [working persisted fst] in Hq |- *. injection Hq as <-.
  split.
  - intros user_in Hok.
    rewrite register_user_run in Hok |- *.
    destruct (find _ (users st)); [destruct Hok as (v & s & Hok); discriminate|].
    cbn [snd]. store_simpl. rewrite filter_snoc, map_app.
    cbn [User.role User.is_verified registered negb].
    rewrite andb_true_r.
    now destruct (Schemas.role user_in =? "driver")%string.
  - intros uid u Hu.
    rewrite verify_driver_run, Hu. cbn [fst snd]. split; [reflexivity|].
    store_simpl. now rewrite unverified_after_verify.
Qed.

(** A driver registers in the sample store, where nobody waits, and is
    verified. *)
Lemma verification_queue_witness :
  let user_in := Schemas.mkUserCreate "d@test.com" "Dora" "0888555555" "driver"
                   "pw" in
  let st1 := snd (serve (RegisterUser user_in) sample_store) in
  fst (get_db Listings.get_unverified_drivers st1)
  = inl (JDict [("drivers",
                 JList [JDict [("user_id", JInt 4); ("full_name", JStr "Dora")]])])
  /\
  fst (get_db Listings.get_unverified_drivers (snd (serve (VerifyDriver 4) st1)))
  = inl (JDict [("drivers", JList [])]).
Proof.
  intros user_in st1.
  destruct (verification_queue sample_store [] eq_refl) as (Hreg & _).
  assert (Hok : succeeds (serve (RegisterUser user_in) sample_store)).
  { rewrite register_user_run. eexists _, _. vm_compute. reflexivity. }
  pose proof (Hreg user_in Hok) as H1. cbv zeta in H1.
  split; [exact (f_equal fst H1)|].
  destruct (verification_queue st1 _ (f_equal fst H1)) as (_ & Hver).
  destruct (Hver 4 (registered 4 user_in) eq_refl) as (_ & H2).
  exact (f_equal fst H2).
Defined.
(** ** What each request can write *)

Lemma footprint (r : request) (st : Store) :
  let st' := snd (serve r st) in
  (~ In TUsers (writes r) -> users st' = users st) /\
  (~ In TDrivers (writes r) -> drivers st' = drivers st) /\
  (~ In TTrips (writes r) -> trips st' = trips st) /\
  (~ In TReviews (writes r) -> reviews st' = reviews st) /\
  (~ In TMessages (writes r) -> messages st' = messages st) /\
  (~ In TPromoCodes (writes r) -> promo_codes st' = promo_codes st) /\
  (writes r = [] -> st' = st).
Proof.
  assert (Hin : forall (x : table_name) (l : list table_name) (P : Prop),
            In x l -> ~ In x l -> P) by (intros x l P H1 H2; now destruct H2).
  destruct r; cbn [writes]; cbv zeta;
    try (rewrite my_messages_store; repeat split; reflexivity);
    repeat split;
    try (intros H; discriminate H);
    try (apply Hin; cbn [In]; tauto);
    intros _; run_handler; split_lookups_goal; store_simpl;
    try reflexivity; now destruct st.
Qed.

(** X26. Each request writes its own tables only.  The user
    endpoints, verification and blocking write the users; driver setup,
    service, shift and location write the drivers; requesting, accepting and
    cancelling write the trips; completing writes the trips and the drivers;
    a review writes the reviews and the drivers, its deletion the reviews
    only; a message writes the messages; the promo-code endpoints write the
    promo codes.  Every other table is left as it was, and login, pricing,
    tracking, earnings, reviews of a driver, inbox and public profile leave
    the whole store as it was, whether they answer or fail. *)
Theorem request_footprint (r : request) (st : Store) :
  let st' := snd (serve r st) in
  (~ In TUsers (writes r) -> users st' = users st) /\
  (~ In TDrivers (writes r) -> drivers st' = drivers st) /\
  (~ In TTrips (writes r) -> trips st' = trips st) /\
  (~ In TReviews (writes r) -> reviews st' = reviews st) /\
  (~ In TMessages (writes r) -> messages st' = messages st) /\
  (~ In TPromoCodes (writes r) -> promo_codes st' = promo_codes st) /\
  (writes r = [] -> st' = st).
Proof. exact (footprint r st). Qed.

(** Completing trip 2 of the sample store leaves users and reviews alone;
    tracking it leaves everything alone. *)
Lemma request_footprint_witness :
  users (snd (serve (Complete 2) sample_store)) = users sample_store /\
  reviews (snd (serve (Complete 2) sample_store)) = reviews sample_store /\
  snd (serve (TrackStatus 2) sample_store) = sample_store.
Proof.
  assert (Hu : ~ In TUsers (writes (Complete 2)))
    by (intros [H | [H | []]]; discriminate H).
  assert (Hr : ~ In TReviews (writes (Complete 2)))
    by (intros [H | [H | []]]; discriminate H).
  destruct (request_footprint (Complete 2) sample_store)
    as (H1 & _ & _ & H4 & _).
  destruct (request_footprint (TrackStatus 2) sample_store)
    as (_ & _ & _ & _ & _ & _ & H7).
  split; [exact (H1 Hu)|]. split; [exact (H4 Hr)|]. exact (H7 eq_refl).
Defined.
(** ** Reviews, listed *)



(** ** References that resolve *)

Lemma find_driver_kept (r : request) (st : Store) (k : Z) :
  find_driver st k <> None -> find_driver (snd (serve r st)) k <> None.
Proof.
  intros Hd. destruct (find_driver st k) as [d|] eqn:E; [|congruence].
  destruct (evolves_find _ _ _ driver_kept_id _ _ k d (drivers_evolve r st) E)
    as (d' & Hd' & _).
  unfold find_driver. now rewrite Hd'.
Qed.

Lemma reviews_recomputed (st : Store) (driver_id : option Z) :
  reviews (rating_recomputed st driver_id) = reviews st.
Proof.
  unfold rating_recomputed.
  destruct (find _ (drivers st)); [|reflexivity].
  now destruct (ReviewsApi.avg _).
Qed.

(** A review is stored for the driver of a completed trip; no other request
    adds a review. *)
Lemma reviews_after (r : request) (st : Store) (x : Review.t) :
  In x (reviews (snd (serve r st))) ->
  In x (reviews st) \/
  exists t, In t (trips st) /\ Trip.status t = "completed" /\
            Review.driver_id x = Trip.driver_id t.
Proof.
  destruct r;
    try (match goal with
         | |- context [serve ?q st] => pose proof (footprint q st) as F
         end; cbv zeta in F;
         destruct F as (_ & _ & _ & F & _);
         match type of F with
         | ~ In TReviews ?l -> _ =>
             assert (Hno : ~ In TReviews l)
               by (cbn [writes In]; intros H;
                   repeat (destruct H as [H | H]; [discriminate H|]); exact H)
         end;
         rewrite (F Hno); intros Hin; now left).
  - rewrite leave_review_run.
    destruct (find_trip st trip_id) as [t|] eqn:Ht; [|now left].
    destruct (Trip.status t =? "completed")%string eqn:Hs; cbn [negb];
      [|now left].
    destruct (find_user st (Trip.client_id t)); [|now left].
    cbv zeta. cbn [snd]. rewrite reviews_recomputed. store_simpl.
    intros Hin. apply in_app_or in Hin. destruct Hin as [Hin | [<- | []]];
      [now left|].
    right. exists t. split; [exact (proj1 (find_some _ _ Ht))|].
    split; [now apply String.eqb_eq | reflexivity].
  - rewrite delete_review_run.
    destruct (find _ (reviews st)); [|now left].
    cbn [snd]. store_simpl. unfold delete_where. intros Hin.
    apply filter_In in Hin. now left.
Qed.

Lemma sound_kept (r : request) (st : Store) :
  sound st -> sound (snd (serve r st)).
Proof.
  intros (Hint & Htr & Hacc & Hrev).
  split; [now apply integrity_kept|].
  split; [apply trips_consistent_kept; [apply Hint | exact Htr]|].
  split; [now apply driver_accounts_kept|].
  apply Forall_forall. intros x Hx.
  rewrite Forall_forall in Hrev.
  destruct (reviews_after r st x Hx) as [Hold | (t & Ht & Hs & Hid)].
  - destruct (Hrev x Hold) as (k & Hk & Hd).
    exists k. split; [exact Hk | now apply find_driver_kept].
  - unfold trips_consistent in Htr. rewrite Forall_forall in Htr.
    destruct (Htr t Ht) as [(H & _) | [(H & _) | [(H & _) | (_ & _ & Hd)]]];
      try (rewrite Hs in H; discriminate H).
    destruct Hd as (k & Hk & Hd).
    exists k. split; [congruence | now apply find_driver_kept].
Qed.

Lemma sound_along (rs : list request) (st : Store) :
  sound st -> sound (serve_all rs st).
Proof.
  revert st. induction rs as [|r rs IH]; intros st H; [exact H|].
  rewrite serve_all_cons. now apply IH, sound_kept.
Qed.

Lemma sound_empty : sound empty_store.
Proof.
  split; [repeat split; constructor|].
  split; [constructor|]. split; [split; constructor | constructor].
Qed.

Lemma filter_all {A} (l : list A) : filter (fun _ => true) l = l.
Proof.
  induction l as [|a l IH]; [reflexivity|]. cbn [filter]. now f_equal.
Qed.

(** X28. The list of all reviews always answers in a store the API
    has built.  That the unique indexes hold, trips are in a state the
    handlers produce, driver profiles belong to users and every review names
    an existing driver is preserved by every request and holds in the empty
    store; where it holds, the list of all reviews answers, with one entry
    for each stored review. *)
Theorem all_reviews_listed :
  (forall (r : request) (st : Store), sound st -> sound (snd (serve r st))) /\
  (forall rs : list request, sound (serve_all rs empty_store)) /\
  (forall st : Store, sound st ->
     exists result,
       get_db Listings.get_all_reviews st
       = (inl (JDict [("all reviews", JList result)]), st) /\
       List.length result = List.length (reviews st)).
Proof.
  split; [exact sound_kept|].
  split; [intros rs; apply sound_along, sound_empty|].
  intros st (_ & _ & (Hacc & _) & Hrev).
  rewrite Forall_forall in Hacc, Hrev.
  unfold get_db, Listings.get_all_reviews, bind, ret, query_all, Reviews, rows.
  cbn [working persisted].
  rewrite filter_all.
  assert (Hentry : forall x, In x (reviews st) ->
            exists y, Listings.all_reviews_entry x (mkSession st st)
                      = (inl y, mkSession st st)).
  { intros x Hx. destruct (Hrev x Hx) as (k & Hk & Hd).
    destruct (find_driver st k) as [d|] eqn:Ed; [|congruence].
    destruct (Hacc d (proj1 (find_some _ _ Ed))) as (u & Hu & _).
    unfold Listings.all_reviews_entry, relationship, query_first, getattr,
      bind, ret, Users, Drivers, rows, pk. rewrite Hk.
    cbn [working persisted]. unfold find_driver in Ed. rewrite Ed.
    cbn [working persisted]. unfold find_user in Hu. rewrite Hu.
    eexists. reflexivity. }
  assert (Hlen : forall (l : list Review.t) s s' ys,
            mapM Listings.all_reviews_entry l s = (inl ys, s') ->
            List.length ys = List.length l).
  { induction l as [|a l IH]; intros s s' ys; cbn [mapM]; unfold bind, ret.
    - intros H. now injection H as <-.
    - destruct (Listings.all_reviews_entry a s) as [[y|e] s1]; [|discriminate].
      destruct (mapM Listings.all_reviews_entry l s1) as [[zs|e] s2] eqn:E;
        [|discriminate].
      intros H. injection H as <- _. cbn [List.length]. f_equal.
      exact (IH _ _ _ E). }
  destruct (mapM_succeeds Listings.all_reviews_entry (reviews st)
              (mkSession st st) Hentry) as (ys & Hys).
  rewrite Hys. exists ys. split; [reflexivity|]. exact (Hlen _ _ _ _ Hys).
Qed.

(** Two registrations, a driver profile, a ride and its review. *)
Lemma all_reviews_listed_witness :
  let st :=
    serve_all
      [RegisterUser (Schemas.mkUserCreate "a@test.com" "A" "1" "client" "pw");
       RegisterUser (Schemas.mkUserCreate "b@test.com" "B" "2" "driver" "pw");
       SetupDriver 2 "Tesla" "CB1";
       RequestTrip (Schemas.mkTripCreate 1 "A" "B" "Standard" 12.0%float
                      false false);
       Accept 1 1; Complete 1; LeaveReview 1 4 "Fine"]
      empty_store in
  exists result,
    get_db Listings.get_all_reviews st
    = (inl (JDict [("all reviews", JList result)]), st) /\
    List.length result = 1%nat.
Proof.
  intros st.
  destruct all_reviews_listed as (_ & Hbuilt & Hlisted).
  destruct (Hlisted st (Hbuilt _)) as (result & H & Hlen).
  exists result. split; [exact H | exact Hlen].
Defined.
(** ** Favorites, listed *)

Example int_examples :
  PyInt.int "12" = Some 12 /\ PyInt.int " -7 " = Some (-7) /\
  PyInt.int "+3" = Some 3 /\ PyInt.int "1_000" = Some 1000 /\
  PyInt.int "00012" = Some 12 /\ PyInt.int "-0" = Some 0 /\
  PyInt.int "_1" = None /\ PyInt.int "1__0" = None /\ PyInt.int "1_" = None /\
  PyInt.int "" = None /\ PyInt.int "-" = None /\ PyInt.int "0x10" = None /\
  PyInt.int "1 2" = None /\ PyInt.int "+-1" = None /\ PyInt.int "- 1" = None /\
  PyInt.int "1.5" = None /\ PyInt.int "abc" = None.
Proof. vm_compute. repeat split. Qed.






















